(** * The jge catalog (catalogs.py): a shallow embedding and its properties

    The class [jge_Catalog] reads a DynamoDB table with a paginated scan,
    builds two pandas frames from the scanned items (features, metadata),
    answers queries over them, downloads a zipped geodatabase from S3 and
    compiles its rasters and feature classes through arcpy.

    The embedding keeps the shape of the Python code:
    - DynamoDB items are dictionaries from attribute names to values;
    - code that can raise returns a [result]; the exception classes that
      the source mentions or provokes are the constructors of [exn];
    - the [while] loop of the scan takes fuel;
    - arcpy's ambient [env.workspace] is explicit state that is threaded
      through the compilation of a geodatabase. *)

From Stdlib Require Import String Ascii ZArith List Lia.
From stdpp Require Import base option list gmap strings.

Local Open Scope string_scope.
Local Open Scope nat_scope.
Local Open Scope list_scope.
Set Warnings "-register-all".

(** ** Python values and exceptions *)

(** Attribute values of a DynamoDB item, as boto3's resource layer
    deserialises them (str, Decimal, bool, None, Binary, set, list, dict). *)
Inductive value : Type :=
| VStr (s : string)
| VNum (n : Z)
| VBool (b : bool)
| VNull
| VBin (b : string)
| VSet (l : list value)
| VList (l : list value)
| VMap (m : list (string * value)).

(** The exceptions that leave the code of catalogs.py. [ExecuteError] is
    [arcpy.ExecuteError], the only class the source catches besides
    [IndexError] and [KeyError]; [ClientError] is botocore's;
    [OtherError] stands for any other class a collaborator raises. *)
Inductive exn : Type :=
| KeyError (k : string)
| IndexError
| TypeError
| ExecuteError
| ClientError (code : string)
| OtherError (name : string).

Inductive result (A : Type) : Type :=
| Ok (a : A)
| Raise (e : exn).
Arguments Ok {A} a.
Arguments Raise {A} e.

#[export] Instance result_ret : MRet result := fun A a => Ok a.
#[export] Instance result_bind : MBind result := fun A B f m =>
  match m with
  | Ok a => f a
  | Raise e => Raise e
  end.

Definition is_Ok {A} (r : result A) : Prop := ∃ a, r = Ok a.
Definition is_Raise {A} (r : result A) : Prop := ∃ e, r = Raise e.

(** A CatalogRecord is one scanned item: a Python dict keyed by strings. *)
Abbreviation Item := (gmap string value).

(** [d[k]] on a dict with string keys. *)
Definition getitem (d : Item) (k : string) : result value :=
  match d !! k with
  | Some v => Ok v
  | None => Raise (KeyError k)
  end.

(** [v[0]] on a deserialised attribute value: lists and strings are the
    subscriptable sequences; a dict has only string keys, so the key [0]
    is absent; the other classes define no [__getitem__]. *)
Definition subscript0 (v : value) : result value :=
  match v with
  | VList (x :: _) => Ok x
  | VList [] => Raise IndexError
  | VStr (String c _) => Ok (VStr (String c EmptyString))
  | VStr EmptyString => Raise IndexError
  | VMap _ => Raise (KeyError "0")
  | VNum _ | VBool _ | VNull | VBin _ | VSet _ => Raise TypeError
  end.

(** ** The metadata table (DynamoDB) *)

(** The response of [table.scan]: the page's items, and the continuation
    token ['LastEvaluatedKey'] when more pages remain. *)
Record response : Type := mkResponse {
  Items : list Item;
  LastEvaluatedKey : option Item
}.

(** A table is what [scan] answers: [None] is the first request,
    [Some k] a request with [ExclusiveStartKey=k]. Each call deserialises
    a fresh response, so the in-place [extend] of the first page's list
    touches no other object. *)
Record Table : Type := mkTable {
  scan : option Item → result response
}.

(** The tables of the region, by name. *)
Abbreviation DynamoDB := (gmap string Table).

(** The [while 'LastEvaluatedKey' in response] loop of [__queryCatalog__].
    [fuel] bounds the number of follow-up requests; [None] means the loop
    is still running when the fuel is spent. *)
Fixpoint scan_loop (fuel : nat) (table : Table) (resp : response)
    (list_dict : list Item) : option (result (list Item)) :=
  match LastEvaluatedKey resp with
  | None => Some (Ok list_dict)
  | Some k =>
    match fuel with
    | O => None
    | S fuel' =>
      match scan table (Some k) with
      | Raise e => Some (Raise e)
      | Ok resp' => scan_loop fuel' table resp' (list_dict ++ Items resp')
      end
    end
  end.

(** [__queryCatalog__]: the first scan, then the loop. A table that does
    not exist makes the first scan raise botocore's ClientError. *)
Definition queryCatalog (fuel : nat) (db : DynamoDB) (table_name : string)
    : option (result (list Item)) :=
  match db !! table_name with
  | None => Some (Raise (ClientError "ResourceNotFoundException"))
  | Some table =>
    match scan table None with
    | Raise e => Some (Raise e)
    | Ok resp => scan_loop fuel table resp (Items resp)
    end
  end.

(** [serves table tok pages]: asked with the token [tok], the table
    answers the pages [pages] one after the other, every page but the last
    carrying a continuation token. *)
Inductive serves (table : Table) : option Item → list (list Item) → Prop :=
| serves_last tok p :
    scan table tok = Ok (mkResponse p None) →
    serves table tok [p]
| serves_more tok p k ps :
    scan table tok = Ok (mkResponse p (Some k)) →
    serves table (Some k) ps →
    serves table tok (p :: ps).

(** A table that holds the given pages; the token of page [i] is the
    item [{"page": i}]. *)
Definition page_token (i : nat) : Item := {[ "page" := VNum (Z.of_nat i) ]}.

Definition token_page (tok : option Item) : nat :=
  match tok with
  | None => 0
  | Some k =>
    match k !! "page" with
    | Some (VNum n) => Z.to_nat n
    | _ => 0
    end
  end.

Definition paged_table (pages : list (list Item)) : Table := mkTable (λ tok,
  let i := token_page tok in
  Ok (mkResponse (nth i pages [])
        (if S i <? length pages then Some (page_token (S i)) else None))).

(** ** The catalog index (pandas frames) *)

(** A DataFrame with rows of type [R]: the rows in order, each with its
    index label. *)
Abbreviation frame R := (list (nat * R)).

(** The labels [0 .. n-1] of a RangeIndex. *)
Definition range_indexed {R} (rows : list R) : frame R :=
  zip (seq 0 (length rows)) rows.

(** [df.values] (row-wise) and [df.index]. *)
Definition frame_values {R} (df : frame R) : list R := map snd df.
Definition frame_index {R} (df : frame R) : list nat := map fst df.

(** [df.append(row, ignore_index=True)]: the row goes last and the
    result is labelled afresh. *)
Definition frame_append {R} (df : frame R) (row : R) : frame R :=
  range_indexed (frame_values df ++ [row]).

(** [df.loc[mask]]: the rows where the boolean mask holds, labels kept. *)
Definition loc_mask {R} (mask : R → bool) (df : frame R) : frame R :=
  filter (λ r, mask r.2 = true) df.

(** [df.loc[i]] for a label [i]: the row that carries it. *)
Definition loc_label {R} (i : nat) (df : frame R) : result R :=
  match list_find (λ r, r.1 = i) df with
  | Some (_, r) => Ok r.2
  | None => Raise (KeyError "label")
  end.

(** [df.reset_index(drop=True)]. *)
Definition reset_index {R} (df : frame R) : frame R :=
  range_indexed (frame_values df).

(** [column == s] for one cell: a cell equals the queried string only if
    it is that string. *)
Definition cell_eq (v : value) (s : string) : bool :=
  match v with
  | VStr s' => bool_decide (s' = s)
  | _ => false
  end.

(** A row of the Features frame. *)
Record FeatureRow : Type := mkFeatureRow {
  ft_feature_name : value;
  ft_s3_versionID : value;
  ft_feature_type : value;
  ft_s3_file_gdb_zip_location : value
}.

(** A row of the Metadata frame. *)
Record MetadataRow : Type := mkMetadataRow {
  md_feature_name : value;
  md_s3_versionID : value;
  md_fields : value
}.

(** Column selection by label, [df['label']]: an unknown label is a
    KeyError. *)
Definition features_column (label : string) : result (FeatureRow → value) :=
  if bool_decide (label = "feature-name") then Ok ft_feature_name
  else if bool_decide (label = "s3-versionID") then Ok ft_s3_versionID
  else if bool_decide (label = "feature-type") then Ok ft_feature_type
  else if bool_decide (label = "s3-file-gdb-zip-location")
       then Ok ft_s3_file_gdb_zip_location
  else Raise (KeyError label).

Definition metadata_column (label : string) : result (MetadataRow → value) :=
  if bool_decide (label = "feature-name") then Ok md_feature_name
  else if bool_decide (label = "s3-versionID") then Ok md_s3_versionID
  else if bool_decide (label = "fields") then Ok md_fields
  else Raise (KeyError label).

(** The row that [__getCatalogMetadata__] builds from one item; the dict
    display evaluates its values in order. *)
Definition metadata_row (ds : Item) : result MetadataRow :=
  name ← getitem ds "feature-name";
  version ← getitem ds "s3-versionID";
  fields ← getitem ds "fields";
  block ← subscript0 fields;
  mret (mkMetadataRow name version block).

Fixpoint metadata_loop (df : frame MetadataRow) (dataset : list Item)
    : result (frame MetadataRow) :=
  match dataset with
  | [] => Ok df
  | ds :: rest =>
    row_data ← metadata_row ds;
    metadata_loop (frame_append df row_data) rest
  end.

(** [__getCatalogMetadata__]. *)
Definition getCatalogMetadata (dataset : list Item) : result (frame MetadataRow) :=
  metadata_loop [] dataset.

(** The row that [__getCatalogFeatures__] builds from one item. *)
Definition features_row (dict_entry : Item) : result FeatureRow :=
  name ← getitem dict_entry "feature-name";
  version ← getitem dict_entry "s3-versionID";
  type ← getitem dict_entry "feature-type";
  location ← getitem dict_entry "s3-file-gdb-zip-location";
  mret (mkFeatureRow name version type location).

Fixpoint features_loop (df : frame FeatureRow) (list_dict : list Item)
    : result (frame FeatureRow) :=
  match list_dict with
  | [] => Ok df
  | dict_entry :: rest =>
    row_data ← features_row dict_entry;
    features_loop (frame_append df row_data) rest
  end.

(** [__getCatalogFeatures__]. *)
Definition getCatalogFeatures (list_dict : list Item) : result (frame FeatureRow) :=
  features_loop [] list_dict.

(** The object [__init__] leaves behind. *)
Record jge_Catalog : Type := mkCatalog {
  cat_table : string;
  cat_ds : list Item;
  cat_Features : frame FeatureRow;
  cat_Metadata : frame MetadataRow;
  FeaturesCount : nat
}.

(** [__init__]: scan, features, metadata, count. An exception of any
    step leaves no object. *)
Definition init (fuel : nat) (db : DynamoDB) (table : string)
    : option (result jge_Catalog) :=
  match queryCatalog fuel db table with
  | None => None
  | Some scanned =>
    Some (ds ← scanned;
          features ← getCatalogFeatures ds;
          metadata ← getCatalogMetadata ds;
          mret (mkCatalog table ds features metadata (length features)))
  end.

Definition getCatalogName (self : jge_Catalog) : string := cat_table self.
Definition getFeatures (self : jge_Catalog) : frame FeatureRow := cat_Features self.

(** The [try] of [getMetaData] with its two handlers: IndexError and
    KeyError are printed and the initial [result = []] is returned. *)
Definition except_Index_Key {A} (body : result A) (fallback : A) : result A :=
  match body with
  | Ok a => Ok a
  | Raise IndexError => Ok fallback
  | Raise (KeyError _) => Ok fallback
  | Raise e => Raise e
  end.

(** [getMetaData]: the two masks are computed before the [try]. *)
Definition getMetaData (self : jge_Catalog) (featureName versionID : string)
    : result (list value) :=
  let df := cat_Metadata self in
  name_col ← metadata_column "feature-name";
  version_col ← metadata_column "s3-versionID";
  let cond r := cell_eq (name_col r) featureName && cell_eq (version_col r) versionID in
  except_Index_Key
    (fields_col ← metadata_column "fields";
     mret (map fields_col (frame_values (reset_index (loc_mask cond df)))))
    [].

(** The three cells a query by version or by type keeps of a row. *)
Definition cells3 (c1 c2 c3 : FeatureRow → value) (r : FeatureRow)
    : value * value * value := (c1 r, c2 r, c3 r).

(** The loop of [getObjectsByVersionID] and [getObjectsByFeatureType]
    over [res.index]: append under the key if it is there, else create
    it. *)
Fixpoint objects_loop (key : string) (res : frame (value * value * value))
    (labels : list nat) (db : gmap string (list (value * value * value)))
    : result (gmap string (list (value * value * value))) :=
  match labels with
  | [] => Ok db
  | i :: rest =>
    row ← loc_label i res;
    match db !! key with
    | Some rows => objects_loop key res rest (<[key := rows ++ [row]]> db)
    | None => objects_loop key res rest (<[key := [row]]> db)
    end
  end.

(** [getObjectsByVersionID]. *)
Definition getObjectsByVersionID (self : jge_Catalog) (versionID : string)
    : result (gmap string (list (value * value * value))) :=
  let df := cat_Features self in
  version_col ← features_column "s3-versionID";
  c1 ← features_column "feature-name";
  c2 ← features_column "feature-type";
  c3 ← features_column "s3-file-gdb-zip-location";
  let res := map (λ r, (r.1, cells3 c1 c2 c3 r.2))
                 (loc_mask (λ r, cell_eq (version_col r) versionID) df) in
  if bool_decide (length res = 0) then Ok ∅
  else objects_loop versionID res (frame_index res) ∅.

(** [getObjectsByFeatureType]. *)
Definition getObjectsByFeatureType (self : jge_Catalog) (featureType : string)
    : result (gmap string (list (value * value * value))) :=
  let df := cat_Features self in
  type_col ← features_column "feature-type";
  c1 ← features_column "feature-name";
  c2 ← features_column "s3-versionID";
  c3 ← features_column "s3-file-gdb-zip-location";
  let res := map (λ r, (r.1, cells3 c1 c2 c3 r.2))
                 (loc_mask (λ r, cell_eq (type_col r) featureType) df) in
  if bool_decide (length res = 0) then Ok ∅
  else objects_loop featureType res (frame_index res) ∅.

(** [dumps]: a scan of the table as it is now. *)
Definition dumps (fuel : nat) (db : DynamoDB) (self : jge_Catalog)
    : option (result (list Item)) :=
  queryCatalog fuel db (cat_table self).

(** ** The storage location pattern (module re) *)

(** The part of the pattern language that the source's pattern uses:
    literal characters (escaped or not), groups, [.], [.*] and [.*?]. *)
Inductive re_tok : Type :=
| RChar (c : ascii)
| RDot
| RDotStar (greedy : bool)
| ROpen
| RClose.

(** Reads a pattern. A backslash makes the next character literal. *)
Fixpoint re_compile (pattern : string) : list re_tok :=
  match pattern with
  | EmptyString => []
  | String "\" (String c rest) => RChar c :: re_compile rest
  | String "(" rest => ROpen :: re_compile rest
  | String ")" rest => RClose :: re_compile rest
  | String "." (String "*" (String "?" rest)) => RDotStar false :: re_compile rest
  | String "." (String "*" rest) => RDotStar true :: re_compile rest
  | String "." rest => RDot :: re_compile rest
  | String c rest => RChar c :: re_compile rest
  end.

(** The line feed, the one character [.] refuses. *)
Definition LF : ascii := ascii_of_nat 10.

(** The groups of a match in progress: those still open (innermost
    first) and those closed (in closing order, which is the numbering
    when groups do not nest). *)
Record groups : Type := mkGroups {
  g_open : list string;
  g_closed : list string
}.

Definition g_push (c : ascii) (g : groups) : groups :=
  mkGroups (map (λ b, b +:+ String c EmptyString) (g_open g)) (g_closed g).
Definition g_begin (g : groups) : groups :=
  mkGroups (EmptyString :: g_open g) (g_closed g).
Definition g_end (g : groups) : groups :=
  match g_open g with
  | [] => g
  | b :: rest => mkGroups rest (g_closed g ++ [b])
  end.

(** The backtracking matcher: [.*?] tries the rest of the pattern first
    and takes one more character only when that fails; [.*] takes as
    many characters as it can and gives them back one by one. As
    [re.match] does, it matches at the start of the string and does not
    ask the pattern to reach the end. *)
Fixpoint re_run (p : list re_tok) : string → groups → option groups :=
  match p with
  | [] => λ _ g, Some g
  | RChar c :: p' => λ s g,
    match s with
    | String a s' => if Ascii.eqb a c then re_run p' s' (g_push a g) else None
    | EmptyString => None
    end
  | RDot :: p' => λ s g,
    match s with
    | String a s' => if Ascii.eqb a LF then None else re_run p' s' (g_push a g)
    | EmptyString => None
    end
  | ROpen :: p' => λ s g, re_run p' s (g_begin g)
  | RClose :: p' => λ s g, re_run p' s (g_end g)
  | RDotStar false :: p' =>
    fix lazy (s : string) (g : groups) : option groups :=
      match re_run p' s g with
      | Some r => Some r
      | None =>
        match s with
        | String a s' => if Ascii.eqb a LF then None else lazy s' (g_push a g)
        | EmptyString => None
        end
      end
  | RDotStar true :: p' =>
    fix greedy (s : string) (g : groups) : option groups :=
      match s with
      | String a s' =>
        if Ascii.eqb a LF then re_run p' s g
        else match greedy s' (g_push a g) with
             | Some r => Some r
             | None => re_run p' s g
             end
      | EmptyString => re_run p' s g
      end
  end.

(** [re.compile(pattern).match(s)]: the groups of the match, or [None]. *)
Definition re_match (pattern s : string) : option (list string) :=
  g_closed <$> re_run (re_compile pattern) s (mkGroups [] []).

(** [__extractBucketAndKey__]: subscripting the [None] of a failed match
    is a TypeError. *)
Definition extractBucketAndKey (s3_location : string) : result (string * string) :=
  let pattern := "s3:\/\/(.*?)\/(.*)" in
  match re_match pattern s3_location with
  | None => Raise TypeError
  | Some [bucket; key] => Ok (bucket, key)
  | Some _ => Raise IndexError
  end.

(** ** The collaborators with state: arcpy, S3 *)

(** What the calls of one catalog object can change outside it: arcpy's
    ambient [env.workspace], the objects requested from S3 and the
    workspaces deleted, in order. *)
Record World : Type := mkWorld {
  workspace : option string;
  s3_downloads : list (string * string);
  deleted : list string
}.

(** Code that runs in the world and may raise; the world is kept as it
    was when the exception was raised. *)
Definition M (A : Type) : Type := World → result A * World.

#[export] Instance M_ret : MRet M := λ A a σ, (Ok a, σ).
#[export] Instance M_bind : MBind M := λ A B f m σ,
  match m σ with
  | (Ok a, σ') => f a σ'
  | (Raise e, σ') => (Raise e, σ')
  end.

(** A pure step that may raise. *)
Definition lift {A} (r : result A) : M A := λ σ, (r, σ).

(** [arcpy.env.workspace = w]. *)
Definition set_workspace (w : option string) : M unit := λ σ,
  (Ok tt, mkWorld w (s3_downloads σ) (deleted σ)).

(** A call of the reader under the workspace that is active. *)
Definition under_workspace {A} (f : option string → result A) : M A := λ σ,
  (f (workspace σ), σ).

(** [try: body except arcpy.ExecuteError: handler]. *)
Definition except_ExecuteError {A} (body handler : M A) : M A := λ σ,
  match body σ with
  | (Raise ExecuteError, σ') => handler σ'
  | other => other
  end.

(** A numpy array: its shape and its cells. *)
Record ndarray : Type := mkArray {
  shape : list nat;
  cells : list Z
}.

(** The geodatabase reader, every operation fallible and (but for
    [Delete]) read under the active workspace. [Describe] gives the
    names of [desc.fields] in order. *)
Record arcpy : Type := mkArcpy {
  ListRasters : option string → result (list string);
  ListFeatureClasses : option string → result (list string);
  RasterToNumPyArray : option string → string → result ndarray;
  Describe : option string → string → result (list string);
  TableToNumPyArray : option string → string → list string → result ndarray;
  Delete : string → result unit
}.

(** Steps 2 and 3 of [__download_s3_zip__] (scratch directory, download,
    unzip, path of the geodatabase) are the object store's and the file
    system's; they give the path or raise. *)
Record s3 : Type := mkS3 {
  download_and_unzip : string → string → result string
}.

Definition s3_fetch (store : s3) (bucket key : string) : M string := λ σ,
  (download_and_unzip store bucket key,
   mkWorld (workspace σ) (s3_downloads σ ++ [(bucket, key)]) (deleted σ)).

(** [arcpy.management.Delete(path)]. *)
Definition arcpy_delete (arc : arcpy) (path : string) : M unit := λ σ,
  match Delete arc path with
  | Ok u => (Ok u, mkWorld (workspace σ) (s3_downloads σ) (deleted σ ++ [path]))
  | Raise e => (Raise e, σ)
  end.

(** A string handed to [re]: anything else is a TypeError. *)
Definition as_str (v : value) : result string :=
  match v with
  | VStr s => Ok s
  | _ => Raise TypeError
  end.

(** [__download_s3_zip__]: [s3_key[0][0]] of the first matching row's
    location, then the pattern, then the download. *)
Definition download_s3_zip (store : s3) (self : jge_Catalog) (versionID : string)
    : M string :=
  let df := getFeatures self in
  '(bucket, key) ← lift (
    version_col ← features_column "s3-versionID";
    location_col ← features_column "s3-file-gdb-zip-location";
    let s3_key := map (λ r, [location_col r])
                    (take 1 (frame_values (loc_mask (λ r, cell_eq (version_col r) versionID) df))) in
    row0 ← match s3_key !! 0 with Some row => Ok row | None => Raise IndexError end;
    cell ← match row0 !! 0 with Some c => Ok c | None => Raise IndexError end;
    location ← as_str cell;
    extractBucketAndKey location);
  s3_fetch store bucket key.

(** ** The dataset compiler *)

(** One compiled layer, the dict stored under the layer's name. *)
Record CompiledLayer : Type := mkLayer {
  layer_s3_versionID : string;
  layer_feature_type : string;
  layer_shape : list nat;
  layer_columns : list string;
  layer_data : list ndarray
}.

(** [if name not in d: d[name] = entry]. *)
Definition add_if_absent (name : string) (entry : CompiledLayer)
    (d : gmap string CompiledLayer) : gmap string CompiledLayer :=
  match d !! name with
  | Some _ => d
  | None => <[name := entry]> d
  end.

Definition raster_layer (versionID : string) (arr : ndarray) : CompiledLayer :=
  mkLayer versionID "Raster Dataset" (shape arr) [] [arr].

Definition vector_layer (versionID : string) (fields : list string) (arr : ndarray)
    : CompiledLayer :=
  mkLayer versionID "Feature Class" (shape arr) fields [arr].

(** The body of the loop over the rasters. *)
Definition compile_raster (arc : arcpy) (versionID : string)
    (d : gmap string CompiledLayer) (in_raster : string)
    : M (gmap string CompiledLayer) :=
  except_ExecuteError
    (in_raster_arr ← under_workspace (λ w, RasterToNumPyArray arc w in_raster);
     mret (add_if_absent in_raster (raster_layer versionID in_raster_arr) d))
    (mret d).

(** The body of the loop over the feature classes. *)
Definition compile_vector (arc : arcpy) (versionID : string)
    (d : gmap string CompiledLayer) (in_vector : string)
    : M (gmap string CompiledLayer) :=
  except_ExecuteError
    (fields ← under_workspace (λ w, Describe arc w in_vector);
     in_vector_arr ← under_workspace (λ w, TableToNumPyArray arc w in_vector fields);
     mret (add_if_absent in_vector (vector_layer versionID fields in_vector_arr) d))
    (mret d).

(** A [for] loop that updates [dataset[0]]. *)
Fixpoint for_each {A S} (body : S → A → M S) (l : list A) (d : S) : M S :=
  match l with
  | [] => mret d
  | x :: rest => d' ← body d x; for_each body rest d'
  end.

(** [__compileDataset__]: the result is the list [dataset], whose one
    element is the dict of the layers. *)
Definition compileDataset (arc : arcpy) (abs_path_file_gdb versionID : string)
    : M (list (gmap string CompiledLayer)) :=
  _ ← set_workspace (Some abs_path_file_gdb);
  rasters ← under_workspace (ListRasters arc);
  d ← for_each (compile_raster arc versionID) rasters ∅;
  vectors ← under_workspace (ListFeatureClasses arc);
  d ← for_each (compile_vector arc versionID) vectors d;
  _ ← set_workspace None;
  mret [d].

(** [retrieveDataset]. *)
Definition retrieveDataset (store : s3) (arc : arcpy) (self : jge_Catalog)
    (versionID : string) : M (list (gmap string CompiledLayer)) :=
  file_gdb ← download_s3_zip store self versionID;
  dataset ← compileDataset arc file_gdb versionID;
  _ ← arcpy_delete arc file_gdb;
  mret dataset.

(** ** Vocabulary of the statements *)

(** A loop that builds one row per item and stops at the first item whose
    row raises. *)
Fixpoint collect {A B} (f : A → result B) (l : list A) : result (list B) :=
  match l with
  | [] => Ok []
  | x :: rest => y ← f x; ys ← collect f rest; mret (y :: ys)
  end.

Definition has_key (d : Item) (k : string) : bool :=
  bool_decide (is_Some (d !! k)).

(** A non-empty sequence in Python's sense: a list or a str with a first
    element. *)
Definition nonempty_sequence (v : value) : bool :=
  match v with
  | VList (_ :: _) => true
  | VStr (String _ _) => true
  | _ => false
  end.

(** A record that has the four feature keys and a non-empty [fields]. *)
Definition record_ok (d : Item) : bool :=
  has_key d "feature-name" && has_key d "s3-versionID" &&
  has_key d "feature-type" && has_key d "s3-file-gdb-zip-location" &&
  match d !! "fields" with
  | Some f => nonempty_sequence f
  | None => false
  end.

(** A record matches a (featureName, versionID) pair. *)
Definition item_cell_eq (d : Item) (k s : string) : bool :=
  match d !! k with
  | Some v => cell_eq v s
  | None => false
  end.

Definition record_matches (featureName versionID : string) (d : Item) : bool :=
  item_cell_eq d "feature-name" featureName && item_cell_eq d "s3-versionID" versionID.

(** The first fields-block of a record. *)
Definition first_block (d : Item) : option value :=
  match d !! "fields" with
  | Some f => match subscript0 f with Ok b => Some b | Raise _ => None end
  | None => None
  end.

(** What the reader gives for a name under a workspace path: the array of
    a raster, the field names and the table of a feature class. *)
Definition read_raster (arc : arcpy) (path name : string) : option ndarray :=
  match RasterToNumPyArray arc (Some path) name with
  | Ok a => Some a
  | Raise _ => None
  end.

Definition read_vector (arc : arcpy) (path name : string)
    : option (list string * ndarray) :=
  match Describe arc (Some path) name with
  | Ok fields =>
    match TableToNumPyArray arc (Some path) name fields with
    | Ok a => Some (fields, a)
    | Raise _ => None
    end
  | Raise _ => None
  end.

(** A read that succeeds or fails with the class the source catches. *)
Definition caught {A} (r : result A) : bool :=
  match r with
  | Ok _ => true
  | Raise ExecuteError => true
  | Raise _ => false
  end.

Definition raster_caught (arc : arcpy) (path name : string) : bool :=
  caught (RasterToNumPyArray arc (Some path) name).

Definition vector_caught (arc : arcpy) (path name : string) : bool :=
  match Describe arc (Some path) name with
  | Ok fields => caught (TableToNumPyArray arc (Some path) name fields)
  | Raise e => caught (Raise e : result unit)
  end.

(** The dict after the loop over the rasters, and after the loop over
    the feature classes, when no read raises past its handler. *)
Definition add_rasters (arc : arcpy) (path versionID : string)
    (rasters : list string) (d : gmap string CompiledLayer) : gmap string CompiledLayer :=
  foldl (λ d name,
           match read_raster arc path name with
           | Some a => add_if_absent name (raster_layer versionID a) d
           | None => d
           end) d rasters.

Definition add_vectors (arc : arcpy) (path versionID : string)
    (vectors : list string) (d : gmap string CompiledLayer) : gmap string CompiledLayer :=
  foldl (λ d name,
           match read_vector arc path name with
           | Some (fields, a) => add_if_absent name (vector_layer versionID fields a) d
           | None => d
           end) d vectors.

(** The location pattern read directly: the text after [s3://] up to the
    first [/] is the bucket, provided no line feed comes before that
    [/]; the key is what follows, up to the first line feed. *)
Fixpoint occurs (c : ascii) (s : string) : bool :=
  match s with
  | EmptyString => false
  | String a rest => Ascii.eqb a c || occurs c rest
  end.

Fixpoint strip_prefix (p s : string) : option string :=
  match p, s with
  | EmptyString, _ => Some s
  | String c p', String a s' => if Ascii.eqb a c then strip_prefix p' s' else None
  | String _ _, EmptyString => None
  end.

Fixpoint before_slash (s : string) : option (string * string) :=
  match s with
  | EmptyString => None
  | String a rest =>
    if Ascii.eqb a "/" then Some (EmptyString, rest)
    else if Ascii.eqb a LF then None
    else match before_slash rest with
         | Some (b, r) => Some (String a b, r)
         | None => None
         end
  end.

Fixpoint line_of (s : string) : string :=
  match s with
  | EmptyString => EmptyString
  | String a rest => if Ascii.eqb a LF then EmptyString else String a (line_of rest)
  end.

Definition parse_location (s : string) : option (string * string) :=
  match strip_prefix "s3://" s with
  | Some t =>
    match before_slash t with
    | Some (bucket, rest) => Some (bucket, line_of rest)
    | None => None
    end
  | None => None
  end.

(** The keys each row builder reads, in the order it reads them, and the
    first of them that a record lacks. *)
Definition features_keys : list string :=
  ["feature-name"; "s3-versionID"; "feature-type"; "s3-file-gdb-zip-location"].

Definition metadata_keys : list string :=
  ["feature-name"; "s3-versionID"; "fields"].

Fixpoint first_missing_key (keys : list string) (d : Item) : option string :=
  match keys with
  | [] => None
  | k :: rest => if has_key d k then first_missing_key rest d else Some k
  end.

(** [fails_after table tok pages e]: from the token [tok] on, the table
    answers the pages [pages], each with a continuation token, and the
    request after them raises [e]. *)
Inductive fails_after (table : Table) : option Item → list (list Item) → exn → Prop :=
| fails_now tok e :
    scan table tok = Raise e →
    fails_after table tok [] e
| fails_later tok p k ps e :
    scan table tok = Ok (mkResponse p (Some k)) →
    fails_after table (Some k) ps e →
    fails_after table tok (p :: ps) e.

(** The compiler read without the world: one turn of each loop, the
    loops, and the layers of a geodatabase. *)
Definition raster_turn (arc : arcpy) (path versionID : string)
    (d : gmap string CompiledLayer) (name : string) : result (gmap string CompiledLayer) :=
  match RasterToNumPyArray arc (Some path) name with
  | Ok a => Ok (add_if_absent name (raster_layer versionID a) d)
  | Raise ExecuteError => Ok d
  | Raise e => Raise e
  end.

Definition vector_turn (arc : arcpy) (path versionID : string)
    (d : gmap string CompiledLayer) (name : string) : result (gmap string CompiledLayer) :=
  match Describe arc (Some path) name with
  | Ok fields =>
    match TableToNumPyArray arc (Some path) name fields with
    | Ok a => Ok (add_if_absent name (vector_layer versionID fields a) d)
    | Raise ExecuteError => Ok d
    | Raise e => Raise e
    end
  | Raise ExecuteError => Ok d
  | Raise e => Raise e
  end.

Fixpoint fold_turns {A S} (turn : S → A → result S) (l : list A) (d : S) : result S :=
  match l with
  | [] => Ok d
  | x :: rest => d' ← turn d x; fold_turns turn rest d'
  end.

Definition compile_layers (arc : arcpy) (path versionID : string)
    : result (gmap string CompiledLayer) :=
  rasters ← ListRasters arc (Some path);
  d ← fold_turns (raster_turn arc path versionID) rasters ∅;
  vectors ← ListFeatureClasses arc (Some path);
  fold_turns (vector_turn arc path versionID) vectors d.

(** An entry that comes from a read of the object of its name. *)
Definition layer_from_read (arc : arcpy) (path versionID name : string)
    (layer : CompiledLayer) : Prop :=
  layer_s3_versionID layer = versionID ∧
  ∃ a, layer_data layer = [a] ∧ layer_shape layer = shape a ∧
       ((layer_feature_type layer = "Raster Dataset" ∧ layer_columns layer = [] ∧
         RasterToNumPyArray arc (Some path) name = Ok a) ∨
        (layer_feature_type layer = "Feature Class" ∧
         Describe arc (Some path) name = Ok (layer_columns layer) ∧
         TableToNumPyArray arc (Some path) name (layer_columns layer) = Ok a)).

(** ** Example data *)

(** The catalog's table in the examples: three pages of records. *)
Definition record_of (name version type location : string) (fields : list value) : Item :=
  {[ "feature-name" := VStr name; "s3-versionID" := VStr version;
     "feature-type" := VStr type; "s3-file-gdb-zip-location" := VStr location;
     "fields" := VList fields ]}.

Definition rec_dem : Item :=
  record_of "dem" "v1" "Raster Dataset" "s3://jge/dem.gdb.zip"
    [VMap [("name", VStr "elevation")]; VMap [("name", VStr "later")]].
Definition rec_wells : Item :=
  record_of "wells" "v2" "Feature Class" "s3://jge/wells.gdb.zip"
    [VMap [("name", VStr "depth")]].
Definition rec_slope : Item :=
  record_of "slope" "v2" "Raster Dataset" "s3://jge/wells.gdb.zip"
    [VMap [("name", VStr "angle")]].

Definition pages3 : list (list Item) := [[rec_dem]; []; [rec_wells; rec_slope]].
Definition db3 : DynamoDB := {[ "jge-catalog-test-03" := paged_table pages3 ]}.

(** A table whose second record has no [fields], one whose record has an
    empty [fields], and the catalog object built from the first page of
    [pages3] alone. *)
Definition rec_nofields : Item :=
  {[ "feature-name" := VStr "roads"; "s3-versionID" := VStr "v3";
     "feature-type" := VStr "Feature Class";
     "s3-file-gdb-zip-location" := VStr "s3://jge/roads.gdb.zip" ]}.
Definition rec_emptyfields : Item :=
  record_of "rivers" "v4" "Feature Class" "s3://jge/rivers.gdb.zip" [].
Definition db_bad : DynamoDB :=
  {[ "jge-catalog-test-03" := paged_table [[rec_dem; rec_nofields]; [rec_emptyfields]] ]}.
Definition db_old : DynamoDB := {[ "jge-catalog-test-03" := paged_table [[rec_dem]] ]}.

Definition row_of (name version type location : string) : FeatureRow :=
  mkFeatureRow (VStr name) (VStr version) (VStr type) (VStr location).

Definition cat_old : jge_Catalog :=
  mkCatalog "jge-catalog-test-03" [rec_dem]
    [(0, row_of "dem" "v1" "Raster Dataset" "s3://jge/dem.gdb.zip")]
    [(0, mkMetadataRow (VStr "dem") (VStr "v1") (VMap [("name", VStr "elevation")]))]
    1.

Definition cat3 : jge_Catalog :=
  mkCatalog "jge-catalog-test-03" [rec_dem; rec_wells; rec_slope]
    [(0, row_of "dem" "v1" "Raster Dataset" "s3://jge/dem.gdb.zip");
     (1, row_of "wells" "v2" "Feature Class" "s3://jge/wells.gdb.zip");
     (2, row_of "slope" "v2" "Raster Dataset" "s3://jge/wells.gdb.zip")]
    [(0, mkMetadataRow (VStr "dem") (VStr "v1") (VMap [("name", VStr "elevation")]));
     (1, mkMetadataRow (VStr "wells") (VStr "v2") (VMap [("name", VStr "depth")]));
     (2, mkMetadataRow (VStr "slope") (VStr "v2") (VMap [("name", VStr "angle")]))]
    3.

(** Geodatabases for the examples: each raster with what reading it
    gives, each feature class with its field names and what reading its
    table gives. Outside a workspace nothing can be listed. *)
Definition assoc {A} (name : string) (l : list (string * A)) : option A :=
  (λ p, p.2.2) <$> list_find (λ p, p.1 = name) l.

Definition no_workspace {A} : result A := Raise (OtherError "RuntimeError").

Definition gdb_of (rasters : list (string * result ndarray))
    (vectors : list (string * (result (list string) * result ndarray))) : arcpy :=
  mkArcpy
    (λ w, match w with Some _ => Ok (map fst rasters) | None => no_workspace end)
    (λ w, match w with Some _ => Ok (map fst vectors) | None => no_workspace end)
    (λ w name, match w, assoc name rasters with
               | Some _, Some r => r
               | _, _ => no_workspace
               end)
    (λ w name, match w, assoc name vectors with
               | Some _, Some v => v.1
               | _, _ => no_workspace
               end)
    (λ w name fields, match w, assoc name vectors with
                      | Some _, Some v => v.2
                      | _, _ => no_workspace
                      end)
    (λ path, Ok tt).

Definition arr_R1 : ndarray := mkArray [10; 10] (repeat 0%Z 100).
Definition arr_V1 : ndarray := mkArray [5] [1; 2; 3; 4; 5]%Z.
Definition fields_V1 : list string := ["OBJECTID"; "Shape"; "name"].

(** One raster "R1" (10 x 10) and one feature class "V1" (3 fields, 5 rows). *)
Definition gdb_R1V1 : arcpy :=
  gdb_of [("R1", Ok arr_R1)] [("V1", (Ok fields_V1, Ok arr_V1))].
(** The raster cannot be read: ExecuteError. *)
Definition gdb_unreadable : arcpy :=
  gdb_of [("R1", Raise ExecuteError)] [("V1", (Ok fields_V1, Ok arr_V1))].
(** The read of the raster raises another class. *)
Definition gdb_runtime : arcpy :=
  gdb_of [("R1", Raise (OtherError "RuntimeError"))] [("V1", (Ok fields_V1, Ok arr_V1))].
(** A raster and a feature class of one name. *)
Definition gdb_collide : arcpy :=
  gdb_of [("X", Ok arr_R1)] [("X", (Ok fields_V1, Ok arr_V1))].

Definition s3_jge : s3 := mkS3 (λ bucket key, Ok "/home/jge/temp/wells.gdb").
Definition world0 : World := mkWorld None [] [].

(** A location with a second line. *)
Definition location_two_lines : string := "s3://b/k" +:+ String LF "x".

(** A table that never ends, one that is throttled on its second page,
    records that break the index, and readers that fail. *)
Definition endless_table : Table :=
  mkTable (λ _, Ok (mkResponse [rec_dem] (Some (page_token 1)))).
Definition throttled_table : Table :=
  mkTable (λ tok, match tok with
                  | None => Ok (mkResponse [rec_dem] (Some (page_token 1)))
                  | Some _ => Raise (ClientError "ProvisionedThroughputExceededException")
                  end).
Definition db_endless : DynamoDB := {[ "jge-catalog-test-03" := endless_table ]}.
Definition db_throttled : DynamoDB := {[ "jge-catalog-test-03" := throttled_table ]}.

Definition rec_notype : Item :=
  {[ "feature-name" := VStr "lakes"; "s3-versionID" := VStr "v5";
     "s3-file-gdb-zip-location" := VStr "s3://jge/lakes.gdb.zip";
     "fields" := VList [VNull] ]}.
Definition db_notype : DynamoDB :=
  {[ "jge-catalog-test-03" := paged_table [[rec_dem; rec_emptyfields; rec_notype]] ]}.
Definition db_emptyfields : DynamoDB :=
  {[ "jge-catalog-test-03" := paged_table [[rec_dem; rec_emptyfields; rec_wells]] ]}.

(** A catalog whose version "v7" has a location that is no s3 location. *)
Definition cat_badloc : jge_Catalog :=
  mkCatalog "jge-catalog-test-03" []
    [(0, row_of "dem" "v7" "Raster Dataset" "https://jge/dem.gdb.zip")] [] 1.

(** The geodatabase cannot be deleted. *)
Definition gdb_locked : arcpy :=
  mkArcpy (ListRasters gdb_R1V1) (ListFeatureClasses gdb_R1V1)
    (RasterToNumPyArray gdb_R1V1) (Describe gdb_R1V1) (TableToNumPyArray gdb_R1V1)
    (λ path, Raise ExecuteError).
(** The feature classes cannot be listed. *)
Definition gdb_nolist : arcpy :=
  mkArcpy (ListRasters gdb_R1V1) (λ w, Raise ExecuteError)
    (RasterToNumPyArray gdb_R1V1) (Describe gdb_R1V1) (TableToNumPyArray gdb_R1V1)
    (Delete gdb_R1V1).

(** * Properties *)

(** ** The paginated scan *)

Section scan.
Variable table : Table.

(** Once the loop holds a response with a token, it appends the pages
    the table serves from that token on. *)
Lemma scan_loop_serves pages : ∀ k resp acc fuel,
  LastEvaluatedKey resp = Some k →
  serves table (Some k) pages →
  length pages ≤ fuel →
  scan_loop fuel table resp acc = Some (Ok (acc ++ concat pages)).
Proof.
  induction pages as [|p ps IH]; intros k resp acc fuel Hk Hs Hf.
  - inversion Hs.
  - destruct fuel as [|fuel]; [simpl in Hf; lia|].
    simpl. rewrite Hk.
    inversion Hs as [? ? Hq | ? ? k' ? Hq Hrest]; subst; rewrite Hq.
    + destruct fuel; simpl; by rewrite app_nil_r.
    + rewrite (IH k'); [by rewrite <- app_assoc | done | done | simpl in Hf; lia].
Qed.

Lemma serves_nonempty tok pages : serves table tok pages → 1 ≤ length pages.
Proof. destruct 1; simpl; lia. Qed.

Lemma scan_first_serves pages resp fuel :
  scan table None = Ok resp →
  serves table None pages →
  length pages ≤ S fuel →
  scan_loop fuel table resp (Items resp) = Some (Ok (concat pages)).
Proof.
  intros Hr Hs Hf.
  inversion Hs as [? p Hq | ? p k ps Hq Hrest]; subst;
    rewrite Hr in Hq; injection Hq as ->.
  - destruct fuel; simpl; by rewrite app_nil_r.
  - simpl. apply scan_loop_serves with (k := k); [done | done | simpl in Hf; lia].
Qed.
End scan.

Lemma queryCatalog_serves fuel (db : DynamoDB) name table pages :
  db !! name = Some table →
  serves table None pages →
  length pages ≤ S fuel →
  queryCatalog fuel db name = Some (Ok (concat pages)).
Proof.
  intros Hdb Hs Hf. unfold queryCatalog. rewrite Hdb.
  destruct (scan table None) as [resp|e] eqn:Hr.
  - by apply scan_first_serves.
  - inversion Hs; congruence.
Qed.

(** The table built from a list of pages serves exactly these pages. *)
Lemma token_page_token i : token_page (Some (page_token i)) = i.
Proof.
  unfold token_page, page_token. rewrite lookup_singleton_eq. apply Nat2Z.id.
Qed.

Lemma lookup_nth_lt {A} (l : list A) i d : i < length l → l !! i = Some (nth i l d).
Proof. intros Hi. destruct (nth_lookup_or_length l i d); [done | lia]. Qed.

Lemma paged_table_serves_from pages : ∀ n i tok,
  token_page tok = i →
  i + S n = length pages →
  serves (paged_table pages) tok (drop i pages).
Proof.
  induction n as [|n IH]; intros i tok Htok Hlen.
  - assert (Hd : drop i pages = [nth i pages []]).
    { rewrite (drop_S pages (nth i pages []) i).
      - rewrite drop_ge; [done | lia].
      - apply lookup_nth_lt; lia. }
    rewrite Hd. apply serves_last. unfold paged_table; simpl. rewrite Htok.
    destruct (Nat.ltb_spec (S i) (length pages)); [lia | done].
  - rewrite (drop_S pages (nth i pages []) i).
    + apply serves_more with (k := page_token (S i)).
      * unfold paged_table; simpl. rewrite Htok.
        destruct (Nat.ltb_spec (S i) (length pages)); [done | lia].
      * apply IH; [apply token_page_token | lia].
    + apply lookup_nth_lt; lia.
Qed.

Lemma paged_table_serves pages :
  pages ≠ [] → serves (paged_table pages) None pages.
Proof.
  intros Hne. destruct pages as [|p ps]; [done|].
  apply (paged_table_serves_from (p :: ps) (length ps) 0 None); simpl; [done | lia].
Qed.

(** C1. A scan that the table answers in N >= 1 pages, each but the last
    with a continuation token, makes [__queryCatalog__] return the items
    of all pages, concatenated in page order, nothing dropped and nothing
    repeated: the result has as many items as the pages together. *)
Theorem queryCatalog_returns_all_pages fuel (db : DynamoDB) name table pages :
  db !! name = Some table →
  serves table None pages →
  length pages ≤ S fuel →
  1 ≤ length pages ∧
  queryCatalog fuel db name = Some (Ok (concat pages)) ∧
  length (concat pages) = sum_list (length <$> pages).
Proof.
  intros Hdb Hs Hf. split; [by eapply serves_nonempty|]. split.
  - by eapply queryCatalog_serves.
  - clear. induction pages as [|p ps IH]; [done|].
    simpl. rewrite length_app. by rewrite IH.
Qed.

Lemma queryCatalog_returns_all_pages_witness :
  queryCatalog 2 db3 "jge-catalog-test-03" = Some (Ok [rec_dem; rec_wells; rec_slope]).
Proof.
  apply (queryCatalog_returns_all_pages 2 db3 "jge-catalog-test-03"
           (paged_table pages3) pages3).
  - reflexivity.
  - apply paged_table_serves. discriminate.
  - simpl. lia.
Defined.

(** ** Construction of the catalog *)

Ltac unfold_result :=
  unfold mbind, mret, result_bind, result_ret in *; simpl in *.

Lemma frame_values_range_indexed {R} (rows : list R) :
  frame_values (range_indexed rows) = rows.
Proof.
  unfold frame_values, range_indexed. apply (snd_zip (seq 0 (length rows)) rows).
  by rewrite length_seq.
Qed.

Lemma frame_index_range_indexed {R} (rows : list R) :
  frame_index (range_indexed rows) = seq 0 (length rows).
Proof.
  unfold frame_index, range_indexed. apply (fst_zip (seq 0 (length rows)) rows).
  by rewrite length_seq.
Qed.

Lemma length_range_indexed {R} (rows : list R) :
  length (range_indexed rows) = length rows.
Proof.
  rewrite <- (frame_values_range_indexed rows) at 2.
  unfold frame_values. by rewrite length_map.
Qed.

(** Both index loops build the range-indexed frame of the rows of the
    items, and raise what the first failing row raises. *)
Lemma features_loop_collect list_dict : ∀ rows0,
  features_loop (range_indexed rows0) list_dict =
  (rows ← collect features_row list_dict; mret (range_indexed (rows0 ++ rows))).
Proof.
  induction list_dict as [|d rest IH]; intros rows0; simpl.
  - unfold_result. by rewrite app_nil_r.
  - destruct (features_row d) as [r|e]; unfold_result; [|done].
    unfold frame_append. rewrite frame_values_range_indexed, IH.
    destruct (collect features_row rest); unfold_result; [|done].
    by rewrite <- app_assoc.
Qed.

Lemma metadata_loop_collect dataset : ∀ rows0,
  metadata_loop (range_indexed rows0) dataset =
  (rows ← collect metadata_row dataset; mret (range_indexed (rows0 ++ rows))).
Proof.
  induction dataset as [|d rest IH]; intros rows0; simpl.
  - unfold_result. by rewrite app_nil_r.
  - destruct (metadata_row d) as [r|e]; unfold_result; [|done].
    unfold frame_append. rewrite frame_values_range_indexed, IH.
    destruct (collect metadata_row rest); unfold_result; [|done].
    by rewrite <- app_assoc.
Qed.

Lemma getCatalogFeatures_collect list_dict :
  getCatalogFeatures list_dict =
  (rows ← collect features_row list_dict; mret (range_indexed rows)).
Proof. apply (features_loop_collect list_dict []). Qed.

Lemma getCatalogMetadata_collect dataset :
  getCatalogMetadata dataset =
  (rows ← collect metadata_row dataset; mret (range_indexed rows)).
Proof. apply (metadata_loop_collect dataset []). Qed.

Lemma collect_Ok_Forall {A B} (f : A → result B) l rows :
  collect f l = Ok rows → Forall2 (λ x y, f x = Ok y) l rows.
Proof.
  revert rows. induction l as [|x l IH]; intros rows; simpl.
  - intros [= <-]. constructor.
  - destruct (f x) as [y|e] eqn:Hx; unfold_result; [|done].
    destruct (collect f l) as [ys|e]; unfold_result; [|done].
    intros [= <-]. constructor; [done | by apply IH].
Qed.

Lemma collect_Forall_Ok {A B} (f : A → result B) l :
  Forall (λ x, is_Ok (f x)) l → is_Ok (collect f l).
Proof.
  induction 1 as [|x l [y Hy] _ [ys Hys]]; simpl.
  - by eexists.
  - rewrite Hy, Hys. by eexists.
Qed.

Lemma subscript0_Ok v : is_Ok (subscript0 v) ↔ nonempty_sequence v = true.
Proof.
  split.
  - intros [b Hb]. destruct v as [[|c s]| | | | | |[|x l]|]; simpl in *; congruence.
  - destruct v as [[|c s]| | | | | |[|x l]|]; simpl; try discriminate; by eexists.
Qed.

(** A record passes both row builders exactly when it is complete. *)
Lemma record_ok_rows d :
  record_ok d = true ↔ is_Ok (features_row d) ∧ is_Ok (metadata_row d).
Proof.
  unfold record_ok, features_row, metadata_row, getitem, has_key.
  destruct (d !! "feature-name"), (d !! "s3-versionID"), (d !! "feature-type"),
    (d !! "s3-file-gdb-zip-location"), (d !! "fields") as [f|];
    unfold_result; unfold is_Ok;
    try (split; [discriminate | intros [[? ?] [? ?]]; discriminate]).
  all: try (split; [intros _; split; by eexists | done]).
  rewrite <- (subscript0_Ok f). unfold is_Ok. split.
  - intros [b ->]. split; by eexists.
  - intros [_ [r Hr]]. destruct (subscript0 f); [by eexists | done].
Qed.

(** What [__init__] leaves in the object when it succeeds. *)
Lemma init_Ok_inv fuel db table cat :
  init fuel db table = Some (Ok cat) →
  ∃ frows mrows,
    queryCatalog fuel db table = Some (Ok (cat_ds cat)) ∧
    collect features_row (cat_ds cat) = Ok frows ∧
    collect metadata_row (cat_ds cat) = Ok mrows ∧
    cat_table cat = table ∧
    cat_Features cat = range_indexed frows ∧
    cat_Metadata cat = range_indexed mrows ∧
    FeaturesCount cat = length frows.
Proof.
  unfold init. destruct (queryCatalog fuel db table) as [[ds|e]|]; [|done|done].
  unfold_result. rewrite getCatalogFeatures_collect, getCatalogMetadata_collect.
  destruct (collect features_row ds) as [frows|e] eqn:Hf; unfold_result; [|done].
  destruct (collect metadata_row ds) as [mrows|e] eqn:Hm; unfold_result; [|done].
  intros [= <-]. simpl. exists frows, mrows.
  by rewrite length_range_indexed.
Qed.

(** C10. Construction needs complete records: if [__init__] succeeds,
    every scanned record has the keys feature-name, s3-versionID,
    feature-type, s3-file-gdb-zip-location and a non-empty fields
    sequence; if some scanned record lacks a key or has an empty fields
    sequence, [__init__] raises and leaves no object. Complete records
    are also enough. *)
Theorem init_requires_complete_records fuel (db : DynamoDB) table ds :
  queryCatalog fuel db table = Some (Ok ds) →
  (∀ cat, init fuel db table = Some (Ok cat) →
          cat_ds cat = ds ∧ Forall (λ d, record_ok d = true) ds) ∧
  (Exists (λ d, record_ok d = false) ds →
   ∃ e, init fuel db table = Some (Raise e)) ∧
  (Forall (λ d, record_ok d = true) ds →
   ∃ cat, init fuel db table = Some (Ok cat)).
Proof.
  intros Hscan. split; [|split].
  - intros cat Hcat.
    destruct (init_Ok_inv _ _ _ _ Hcat) as (frows & mrows & Hq & Hf & Hm & _).
    rewrite Hscan in Hq. injection Hq as ->. split; [done|].
    apply collect_Ok_Forall in Hf, Hm.
    apply Forall_lookup. intros i d Hi. apply record_ok_rows.
    destruct (Forall2_lookup_l _ _ _ _ _ Hf Hi) as (fr & _ & Hfr).
    destruct (Forall2_lookup_l _ _ _ _ _ Hm Hi) as (mr & _ & Hmr).
    split; by eexists.
  - intros Hbad. unfold init. rewrite Hscan. unfold_result.
    rewrite getCatalogFeatures_collect, getCatalogMetadata_collect.
    destruct (collect features_row ds) as [frows|e] eqn:Hf; unfold_result;
      [|by eexists].
    destruct (collect metadata_row ds) as [mrows|e] eqn:Hm; unfold_result;
      [|by eexists].
    exfalso. apply collect_Ok_Forall in Hf, Hm.
    apply list.Exists_exists in Hbad as (d & Hd & Hdbad).
    apply list_elem_of_lookup in Hd as [i Hi].
    destruct (Forall2_lookup_l _ _ _ _ _ Hf Hi) as (fr & _ & Hfr).
    destruct (Forall2_lookup_l _ _ _ _ _ Hm Hi) as (mr & _ & Hmr).
    assert (record_ok d = true) by (apply record_ok_rows; split; by eexists).
    congruence.
  - intros Hall. unfold init. rewrite Hscan. unfold_result.
    rewrite getCatalogFeatures_collect, getCatalogMetadata_collect.
    destruct (collect_Forall_Ok features_row ds) as [frows ->].
    { eapply Forall_impl; [exact Hall|]. intros d Hd. by apply record_ok_rows. }
    destruct (collect_Forall_Ok metadata_row ds) as [mrows ->].
    { eapply Forall_impl; [exact Hall|]. intros d Hd. by apply record_ok_rows. }
    unfold_result. by eexists.
Qed.

Lemma init_db3 : init 2 db3 "jge-catalog-test-03" = Some (Ok cat3).
Proof. vm_compute. reflexivity. Qed.

Lemma init_db_old : init 0 db_old "jge-catalog-test-03" = Some (Ok cat_old).
Proof. vm_compute. reflexivity. Qed.

Lemma init_requires_complete_records_witness :
  (∃ cat, init 2 db3 "jge-catalog-test-03" = Some (Ok cat)) ∧
  (∃ e, init 1 db_bad "jge-catalog-test-03" = Some (Raise e)).
Proof.
  split.
  - apply (init_requires_complete_records 2 db3 "jge-catalog-test-03"
             [rec_dem; rec_wells; rec_slope]); [reflexivity|].
    repeat constructor.
  - apply (init_requires_complete_records 1 db_bad "jge-catalog-test-03"
             [rec_dem; rec_nofields; rec_emptyfields]); [reflexivity|].
    apply Exists_cons_tl, Exists_cons_hd. reflexivity.
Defined.

(** ** dumps *)

(** C9. [dumps] is a scan of the table as the backend has it when it is
    called: whatever the object cached at construction ([self] is any
    object on that table), and whatever bound the loop is run with, two
    calls against the same backend return the same records, the pages
    of the table concatenated. *)
Theorem dumps_fresh_and_idempotent fuel1 fuel2 (db : DynamoDB) self table pages :
  db !! cat_table self = Some table →
  serves table None pages →
  length pages ≤ S fuel1 →
  length pages ≤ S fuel2 →
  dumps fuel1 db self = Some (Ok (concat pages)) ∧
  dumps fuel2 db self = dumps fuel1 db self ∧
  ∀ other, cat_table other = cat_table self →
           dumps fuel1 db other = dumps fuel1 db self.
Proof.
  intros Hdb Hs Hf1 Hf2. unfold dumps.
  rewrite (queryCatalog_serves fuel1 db _ table pages) by done.
  rewrite (queryCatalog_serves fuel2 db _ table pages) by done.
  split; [done|]. split; [done|].
  intros other ->. by rewrite (queryCatalog_serves fuel1 db _ table pages).
Qed.

Lemma dumps_fresh_and_idempotent_witness :
  cat_ds cat_old = [rec_dem] ∧
  dumps 2 db3 cat_old = Some (Ok [rec_dem; rec_wells; rec_slope]) ∧
  dumps 5 db3 cat_old = dumps 2 db3 cat_old.
Proof.
  split; [reflexivity|].
  pose proof (dumps_fresh_and_idempotent 2 5 db3 cat_old (paged_table pages3) pages3)
    as H.
  split; apply H; try reflexivity; try (apply paged_table_serves; discriminate);
    simpl; lia.
Defined.

(** ** Queries over the index *)

Lemma frame_values_loc_mask {R} (mask : R → bool) (df : frame R) :
  frame_values (loc_mask mask df) = filter (λ r, mask r = true) (frame_values df).
Proof.
  unfold frame_values, loc_mask. induction df as [|[i r] df IH]; [done|].
  rewrite filter_cons. simpl. rewrite filter_cons.
  destruct (decide (mask r = true)); simpl; by rewrite IH.
Qed.

Lemma frame_values_reset_index {R} (df : frame R) :
  frame_values (reset_index df) = frame_values df.
Proof. unfold reset_index. apply frame_values_range_indexed. Qed.

(** [getMetaData] on any object: the [fields] cells of the rows that
    match, in row order. No step of it raises. *)
Lemma getMetaData_rows self featureName versionID :
  getMetaData self featureName versionID =
  Ok (map md_fields
        (filter (λ r, cell_eq (md_feature_name r) featureName &&
                      cell_eq (md_s3_versionID r) versionID = true)
                (frame_values (cat_Metadata self)))).
Proof.
  unfold getMetaData. change (metadata_column "feature-name") with (Ok md_feature_name).
  change (metadata_column "s3-versionID") with (Ok md_s3_versionID).
  change (metadata_column "fields") with (Ok md_fields).
  unfold_result. by rewrite frame_values_reset_index, frame_values_loc_mask.
Qed.

(** A Metadata row mirrors its record: same match, and its [fields] cell
    is the record's first block. *)
Lemma metadata_row_mirror d r featureName versionID :
  metadata_row d = Ok r →
  cell_eq (md_feature_name r) featureName && cell_eq (md_s3_versionID r) versionID
    = record_matches featureName versionID d
  ∧ first_block d = Some (md_fields r).
Proof.
  unfold metadata_row, record_matches, item_cell_eq, first_block, getitem.
  destruct (d !! "feature-name"), (d !! "s3-versionID"), (d !! "fields") as [f|];
    unfold_result; try done.
  destruct (subscript0 f); unfold_result; [|done].
  by intros [= <-].
Qed.

Lemma metadata_rows_mirror featureName versionID ds rows :
  Forall2 (λ d r, metadata_row d = Ok r) ds rows →
  map md_fields
    (filter (λ r, cell_eq (md_feature_name r) featureName &&
                  cell_eq (md_s3_versionID r) versionID = true) rows) =
  omap first_block
    (filter (λ d, record_matches featureName versionID d = true) ds).
Proof.
  induction 1 as [|d r ds rows Hd _ IH]; [done|].
  destruct (metadata_row_mirror d r featureName versionID Hd) as [Hm Hb].
  rewrite !filter_cons. rewrite Hm.
  destruct (decide (record_matches featureName versionID d = true)); simpl.
  - by rewrite Hb, IH.
  - done.
Qed.

(** C3. [getMetaData] does not raise. It returns the first fields-blocks
    of the records that match the pair, in scan order: nothing when no
    record matches, and, when one record matches (the pair is the key of
    a record), exactly the first element of that record's [fields], the
    later elements not being kept. *)
Theorem getMetaData_first_block fuel (db : DynamoDB) table self featureName versionID :
  init fuel db table = Some (Ok self) →
  let matching := filter (λ d, record_matches featureName versionID d = true)
                         (cat_ds self) in
  getMetaData self featureName versionID = Ok (omap first_block matching) ∧
  (matching = [] → getMetaData self featureName versionID = Ok []) ∧
  (∀ d block later,
     matching = [d] → d !! "fields" = Some (VList (block :: later)) →
     getMetaData self featureName versionID = Ok [block]).
Proof.
  intros Hinit matching.
  destruct (init_Ok_inv _ _ _ _ Hinit) as (frows & mrows & _ & _ & Hm & _ & _ & HM & _).
  assert (Hgen : getMetaData self featureName versionID = Ok (omap first_block matching)).
  { rewrite getMetaData_rows, HM, frame_values_range_indexed.
    f_equal. apply metadata_rows_mirror. by apply collect_Ok_Forall. }
  split; [done|]. split.
  - intros Hnone. by rewrite Hgen, Hnone.
  - intros d block later Hone Hfields. rewrite Hgen, Hone. simpl.
    unfold first_block. by rewrite Hfields.
Qed.

Lemma getMetaData_first_block_witness :
  getMetaData cat3 "dem" "v1" = Ok [VMap [("name", VStr "elevation")]] ∧
  getMetaData cat3 "dem" "v2" = Ok [].
Proof.
  pose proof (getMetaData_first_block 2 db3 "jge-catalog-test-03" cat3 "dem" "v1" init_db3)
    as (_ & _ & Hone).
  pose proof (getMetaData_first_block 2 db3 "jge-catalog-test-03" cat3 "dem" "v2" init_db3)
    as (_ & Hnone & _).
  split.
  - apply (Hone rec_dem _ [VMap [("name", VStr "later")]]); reflexivity.
  - apply Hnone. reflexivity.
Defined.

Lemma loc_label_unique {R} (res : frame R) i row :
  NoDup (frame_index res) → (i, row) ∈ res → loc_label i res = Ok row.
Proof.
  unfold loc_label, frame_index.
  induction res as [|[j r] res IH]; intros Hnd Hin.
  - by apply elem_of_nil in Hin.
  - simpl in *. apply NoDup_cons in Hnd as [Hj Hnd].
    destruct (decide (j = i)) as [->|Hne]; simpl.
    + apply elem_of_cons in Hin as [[= ->]|Hin]; [done|].
      exfalso. apply Hj. apply list_elem_of_In, in_map_iff.
      exists (i, row). split; [done | by apply list_elem_of_In].
    + apply elem_of_cons in Hin as [[= -> ->]|Hin]; [done|].
      specialize (IH Hnd Hin).
      destruct (list_find (λ r0 : nat * R, r0.1 = i) res) as [[k [l r']]|];
        simpl in *; done.
Qed.

Lemma frame_index_loc_mask_NoDup {R} (mask : R → bool) (df : frame R) :
  NoDup (frame_index df) → NoDup (frame_index (loc_mask mask df)).
Proof.
  unfold frame_index, loc_mask.
  induction df as [|[i r] df IH]; intros Hnd; [done|].
  simpl in Hnd. apply NoDup_cons in Hnd as [Hi Hnd].
  rewrite filter_cons. destruct (decide (mask (i, r).2 = true)); simpl; [|by apply IH].
  apply NoDup_cons. split; [|by apply IH].
  intros Hin. apply Hi. apply list_elem_of_In, in_map_iff in Hin as ([i' r'] & Hfst & Hin).
  simpl in Hfst. subst i'. apply list_elem_of_In, list_elem_of_filter in Hin as [_ Hin].
  apply list_elem_of_In, in_map_iff. exists (i, r'). split; [done | by apply list_elem_of_In].
Qed.

Lemma frame_index_range_indexed_NoDup {R} (rows : list R) :
  NoDup (frame_index (range_indexed rows)).
Proof. rewrite frame_index_range_indexed. apply NoDup_seq. Qed.

(** The loop over the labels of the selection: each label finds its row,
    and the rows pile up under the one key. *)
Lemma objects_loop_single_key key (res : frame (value * value * value)) :
  NoDup (frame_index res) →
  ∀ part db,
    (∀ x, x ∈ part → x ∈ res) →
    objects_loop key res (frame_index part) db =
    Ok (match part with
        | [] => db
        | _ => <[key := default [] (db !! key) ++ frame_values part]> db
        end).
Proof.
  intros Hnd. induction part as [|[i row] part IH]; intros db Hsub; [done|].
  simpl. rewrite (loc_label_unique res i row Hnd) by (apply Hsub; left).
  unfold_result.
  assert (Hsub' : ∀ x, x ∈ part → x ∈ res) by (intros x Hx; apply Hsub; by right).
  destruct (db !! key) as [rows|] eqn:Hk; simpl; rewrite IH by done;
    (destruct part as [|p part']; [done|]);
    rewrite lookup_insert_eq; simpl; rewrite insert_insert_eq;
    by rewrite <- ?app_assoc.
Qed.

(** The selection of a query, turned into the mapping. *)
Lemma objects_of_selection key (c : FeatureRow → value * value * value)
    (sel : frame FeatureRow) :
  NoDup (frame_index sel) →
  let res := map (λ r, (r.1, c r.2)) sel in
  (if bool_decide (length res = 0) then Ok ∅
   else objects_loop key res (frame_index res) ∅) =
  Ok (match frame_values sel with
      | [] => ∅
      | rows => {[ key := map c rows ]}
      end).
Proof.
  intros Hnd res.
  assert (Hidx : frame_index res = frame_index sel).
  { unfold res, frame_index. by rewrite map_map. }
  assert (Hval : frame_values res = map c (frame_values sel)).
  { unfold res, frame_values. by rewrite !map_map. }
  rewrite (objects_loop_single_key key res); [| by rewrite Hidx | done].
  rewrite lookup_empty, Hval. simpl.
  destruct sel as [|x sel']; [done|].
  subst res. simpl. by rewrite insert_empty.
Qed.

(** [getObjectsByVersionID] on an object whose Features frame has
    distinct labels. *)
Lemma getObjectsByVersionID_rows self versionID :
  NoDup (frame_index (cat_Features self)) →
  getObjectsByVersionID self versionID =
  Ok (match filter (λ r, cell_eq (ft_s3_versionID r) versionID = true)
                   (frame_values (getFeatures self)) with
      | [] => ∅
      | rows => {[ versionID :=
                   map (cells3 ft_feature_name ft_feature_type
                          ft_s3_file_gdb_zip_location) rows ]}
      end).
Proof.
  intros Hnd. unfold getObjectsByVersionID, getFeatures.
  change (features_column "s3-versionID") with (Ok ft_s3_versionID).
  change (features_column "feature-name") with (Ok ft_feature_name).
  change (features_column "feature-type") with (Ok ft_feature_type).
  change (features_column "s3-file-gdb-zip-location")
    with (Ok ft_s3_file_gdb_zip_location).
  unfold_result.
  rewrite <- frame_values_loc_mask.
  apply (objects_of_selection versionID
           (cells3 ft_feature_name ft_feature_type ft_s3_file_gdb_zip_location)).
  by apply frame_index_loc_mask_NoDup.
Qed.

(** C2. On a constructed catalog, [getObjectsByVersionID v] returns the
    empty mapping when no FeatureIndex row has the version [v];
    otherwise a mapping whose only key is [v], with the (feature-name,
    feature-type, location) triple of every matching row, in row order,
    as many entries as there are rows with that version. *)
Theorem getObjectsByVersionID_single_key fuel (db : DynamoDB) table self versionID :
  init fuel db table = Some (Ok self) →
  let rows := filter (λ r, cell_eq (ft_s3_versionID r) versionID = true)
                     (frame_values (getFeatures self)) in
  ∃ m, getObjectsByVersionID self versionID = Ok m ∧
       (rows = [] → m = ∅) ∧
       (rows ≠ [] →
        dom m = {[ versionID ]} ∧
        ∃ entries,
          m !! versionID = Some entries ∧
          entries = map (λ r, (ft_feature_name r, ft_feature_type r,
                               ft_s3_file_gdb_zip_location r)) rows ∧
          length entries = length rows).
Proof.
  intros Hinit rows.
  destruct (init_Ok_inv _ _ _ _ Hinit) as (frows & mrows & _ & _ & _ & _ & HF & _).
  eexists. split.
  - apply getObjectsByVersionID_rows. rewrite HF. apply frame_index_range_indexed_NoDup.
  - fold rows. split.
    + by intros ->.
    + intros Hne. destruct rows as [|r rows'] eqn:Hrows; [done|]. split.
      * by rewrite dom_singleton_L.
      * eexists. split; [apply lookup_singleton_eq|]. split; [done|].
        by rewrite length_map.
Qed.

Lemma getObjectsByVersionID_single_key_witness :
  (∃ m, getObjectsByVersionID cat3 "v2" = Ok m ∧ dom m = {[ "v2" ]} ∧
        m !! "v2" = Some [(VStr "wells", VStr "Feature Class", VStr "s3://jge/wells.gdb.zip");
                          (VStr "slope", VStr "Raster Dataset", VStr "s3://jge/wells.gdb.zip")]) ∧
  (∃ m, getObjectsByVersionID cat3 "v9" = Ok m ∧ m = ∅).
Proof.
  split.
  - destruct (getObjectsByVersionID_single_key 2 db3 "jge-catalog-test-03" cat3 "v2" init_db3)
      as (m & Hm & _ & Hsome).
    exists m. split; [exact Hm|].
    destruct Hsome as (Hdom & entries & Hlook & Hent & _); [discriminate|].
    split; [exact Hdom|]. rewrite Hlook, Hent. reflexivity.
  - destruct (getObjectsByVersionID_single_key 2 db3 "jge-catalog-test-03" cat3 "v9" init_db3)
      as (m & Hm & Hnone & _).
    exists m. split; [exact Hm|]. apply Hnone. reflexivity.
Defined.

(** ** The fetch of an unknown version *)

(** C4. With no FeatureIndex row of the version, [__download_s3_zip__]
    (and so [retrieveDataset]) takes element 0 of an empty selection:
    it raises the IndexError of that access, before any download. *)
Theorem fetch_unknown_version_IndexError store arc self versionID σ :
  filter (λ r, cell_eq (ft_s3_versionID r) versionID = true)
         (frame_values (getFeatures self)) = [] →
  download_s3_zip store self versionID σ = (Raise IndexError, σ) ∧
  retrieveDataset store arc self versionID σ = (Raise IndexError, σ).
Proof.
  intros Hnone.
  assert (Hd : download_s3_zip store self versionID σ = (Raise IndexError, σ)).
  { unfold download_s3_zip.
    change (features_column "s3-versionID") with (Ok ft_s3_versionID).
    change (features_column "s3-file-gdb-zip-location")
      with (Ok ft_s3_file_gdb_zip_location).
    unfold mbind at 1. unfold M_bind, lift. unfold_result.
    by rewrite frame_values_loc_mask, Hnone. }
  split; [done|]. unfold retrieveDataset, mbind, M_bind. by rewrite Hd.
Qed.

Lemma fetch_unknown_version_IndexError_witness :
  retrieveDataset s3_jge gdb_R1V1 cat3 "v9" world0 = (Raise IndexError, world0).
Proof.
  apply (fetch_unknown_version_IndexError s3_jge gdb_R1V1 cat3 "v9" world0).
  reflexivity.
Defined.

(** ** The dataset compiler *)

Ltac unfold_M :=
  unfold mbind, mret, M_bind, M_ret, set_workspace, under_workspace,
    except_ExecuteError, lift in *; simpl in *.

Section compiler.
Variable arc : arcpy.
Variables path versionID : string.

(** One turn of each loop, under the workspace [path]. *)
Lemma compile_raster_step d name σ :
  workspace σ = Some path →
  compile_raster arc versionID d name σ =
  match RasterToNumPyArray arc (Some path) name with
  | Ok a => (Ok (add_if_absent name (raster_layer versionID a) d), σ)
  | Raise ExecuteError => (Ok d, σ)
  | Raise e => (Raise e, σ)
  end.
Proof.
  intros Hw. unfold compile_raster. unfold_M. rewrite Hw.
  destruct (RasterToNumPyArray arc (Some path) name) as [a|[]]; reflexivity.
Qed.

Lemma compile_vector_step d name σ :
  workspace σ = Some path →
  compile_vector arc versionID d name σ =
  match Describe arc (Some path) name with
  | Ok fields =>
    match TableToNumPyArray arc (Some path) name fields with
    | Ok a => (Ok (add_if_absent name (vector_layer versionID fields a) d), σ)
    | Raise ExecuteError => (Ok d, σ)
    | Raise e => (Raise e, σ)
    end
  | Raise ExecuteError => (Ok d, σ)
  | Raise e => (Raise e, σ)
  end.
Proof.
  intros Hw. unfold compile_vector. unfold_M. rewrite Hw.
  destruct (Describe arc (Some path) name) as [fields|[]]; try reflexivity.
  destruct (TableToNumPyArray arc (Some path) name fields) as [a|[]]; reflexivity.
Qed.

(** The loops, when every read succeeds or raises ExecuteError. *)
Lemma raster_loop_caught rasters : ∀ d σ,
  workspace σ = Some path →
  Forall (λ n, raster_caught arc path n = true) rasters →
  for_each (compile_raster arc versionID) rasters d σ =
  (Ok (add_rasters arc path versionID rasters d), σ).
Proof.
  induction rasters as [|n rest IH]; intros d σ Hw Hall; [done|].
  apply Forall_cons in Hall as [Hn Hrest].
  simpl. unfold mbind, M_bind. rewrite compile_raster_step by done.
  unfold raster_caught in Hn. unfold add_rasters. simpl. unfold read_raster at 2.
  destruct (RasterToNumPyArray arc (Some path) n) as [a|[]]; try discriminate;
    by apply IH.
Qed.

Lemma vector_loop_caught vectors : ∀ d σ,
  workspace σ = Some path →
  Forall (λ n, vector_caught arc path n = true) vectors →
  for_each (compile_vector arc versionID) vectors d σ =
  (Ok (add_vectors arc path versionID vectors d), σ).
Proof.
  induction vectors as [|n rest IH]; intros d σ Hw Hall; [done|].
  apply Forall_cons in Hall as [Hn Hrest].
  simpl. unfold mbind, M_bind. rewrite compile_vector_step by done.
  unfold vector_caught in Hn. unfold add_vectors. simpl. unfold read_vector at 2.
  destruct (Describe arc (Some path) n) as [fields|[]]; try discriminate;
    try by apply IH.
  destruct (TableToNumPyArray arc (Some path) n fields) as [a|[]];
    try discriminate; by apply IH.
Qed.

(** A read that raises another class ends the loop there. *)
Lemma raster_loop_escape pre name post e : ∀ d σ,
  workspace σ = Some path →
  Forall (λ n, raster_caught arc path n = true) pre →
  RasterToNumPyArray arc (Some path) name = Raise e →
  e ≠ ExecuteError →
  for_each (compile_raster arc versionID) (pre ++ name :: post) d σ = (Raise e, σ).
Proof.
  induction pre as [|n rest IH]; intros d σ Hw Hall Hn He; simpl.
  - unfold mbind, M_bind. rewrite compile_raster_step by done. rewrite Hn.
    by destruct e.
  - apply Forall_cons in Hall as [Hc Hrest].
    unfold mbind, M_bind. rewrite compile_raster_step by done.
    unfold raster_caught in Hc.
    destruct (RasterToNumPyArray arc (Some path) n) as [a|[]]; try discriminate;
      by apply IH.
Qed.

(** What is stored under a name after each loop. *)
Lemma add_rasters_lookup rasters name : ∀ d,
  add_rasters arc path versionID rasters d !! name =
  match d !! name with
  | Some layer => Some layer
  | None => if decide (name ∈ rasters)
            then raster_layer versionID <$> read_raster arc path name
            else None
  end.
Proof.
  unfold add_rasters.
  induction rasters as [|n rest IH]; intros d; simpl.
  - by destruct (d !! name).
  - rewrite IH. clear IH.
    destruct (decide (name = n)) as [->|Hne].
    + rewrite (decide_True (P := n ∈ n :: rest)) by left.
      destruct (read_raster arc path n) as [a|] eqn:Hr; simpl.
      * unfold add_if_absent. destruct (d !! n) as [l|] eqn:Hd; [by rewrite Hd|].
        by rewrite lookup_insert_eq.
      * destruct (d !! n); [done|]. by destruct (decide (n ∈ rest)).
    + assert (Hd : ∀ d', (match read_raster arc path n with
                          | Some a => add_if_absent n (raster_layer versionID a) d'
                          | None => d'
                          end) !! name = d' !! name).
      { intros d'. destruct (read_raster arc path n); [|done].
        unfold add_if_absent. destruct (d' !! n); [done|].
        by rewrite lookup_insert_ne. }
      rewrite Hd. destruct (d !! name); [done|].
      destruct (decide (name ∈ rest)) as [Hin|Hnin].
      * by rewrite (decide_True (P := name ∈ n :: rest)) by (by right).
      * rewrite (decide_False (P := name ∈ n :: rest)); [done|].
        intros [?|?]%elem_of_cons; done.
Qed.

Lemma add_vectors_lookup vectors name : ∀ d,
  add_vectors arc path versionID vectors d !! name =
  match d !! name with
  | Some layer => Some layer
  | None => if decide (name ∈ vectors)
            then (λ fa, vector_layer versionID fa.1 fa.2) <$> read_vector arc path name
            else None
  end.
Proof.
  unfold add_vectors.
  induction vectors as [|n rest IH]; intros d; simpl.
  - by destruct (d !! name).
  - rewrite IH. clear IH.
    destruct (decide (name = n)) as [->|Hne].
    + rewrite (decide_True (P := n ∈ n :: rest)) by left.
      destruct (read_vector arc path n) as [[fields a]|] eqn:Hr; simpl.
      * unfold add_if_absent. destruct (d !! n) as [l|] eqn:Hd; [by rewrite Hd|].
        by rewrite lookup_insert_eq.
      * destruct (d !! n); [done|]. by destruct (decide (n ∈ rest)).
    + assert (Hd : ∀ d', (match read_vector arc path n with
                          | Some (fields, a) =>
                            add_if_absent n (vector_layer versionID fields a) d'
                          | None => d'
                          end) !! name = d' !! name).
      { intros d'. destruct (read_vector arc path n) as [[fields a]|]; [|done].
        unfold add_if_absent. destruct (d' !! n); [done|].
        by rewrite lookup_insert_ne. }
      rewrite Hd. destruct (d !! name); [done|].
      destruct (decide (name ∈ rest)) as [Hin|Hnin].
      * by rewrite (decide_True (P := name ∈ n :: rest)) by (by right).
      * rewrite (decide_False (P := name ∈ n :: rest)); [done|].
        intros [?|?]%elem_of_cons; done.
Qed.

(** [__compileDataset__] when the listings succeed and every read
    succeeds or raises ExecuteError: the one-element list with the
    dict of both loops, and the workspace unset. *)
Lemma compileDataset_caught rasters vectors σ :
  ListRasters arc (Some path) = Ok rasters →
  ListFeatureClasses arc (Some path) = Ok vectors →
  Forall (λ n, raster_caught arc path n = true) rasters →
  Forall (λ n, vector_caught arc path n = true) vectors →
  compileDataset arc path versionID σ =
  (Ok [add_vectors arc path versionID vectors
         (add_rasters arc path versionID rasters ∅)],
   mkWorld None (s3_downloads σ) (deleted σ)).
Proof.
  intros Hr Hv Hrc Hvc. unfold compileDataset.
  unfold mbind at 1. unfold M_bind at 1. unfold set_workspace at 1.
  unfold mbind at 1. unfold M_bind at 1. unfold under_workspace at 1.
  simpl workspace. rewrite Hr.
  unfold mbind at 1. unfold M_bind at 1.
  rewrite raster_loop_caught by done.
  unfold mbind at 1. unfold M_bind at 1. unfold under_workspace at 1.
  simpl workspace. rewrite Hv.
  unfold mbind at 1. unfold M_bind at 1.
  rewrite vector_loop_caught by done.
  reflexivity.
Qed.

(** A raster whose read raises another class: the exception leaves
    [__compileDataset__] and the workspace stays set. *)
Lemma compileDataset_escape pre name post e σ :
  ListRasters arc (Some path) = Ok (pre ++ name :: post) →
  Forall (λ n, raster_caught arc path n = true) pre →
  RasterToNumPyArray arc (Some path) name = Raise e →
  e ≠ ExecuteError →
  compileDataset arc path versionID σ =
  (Raise e, mkWorld (Some path) (s3_downloads σ) (deleted σ)).
Proof.
  intros Hr Hpre Hn He. unfold compileDataset.
  unfold mbind at 1. unfold M_bind at 1. unfold set_workspace at 1.
  unfold mbind at 1. unfold M_bind at 1. unfold under_workspace at 1.
  simpl workspace. rewrite Hr.
  unfold mbind at 1. unfold M_bind at 1.
  by rewrite (raster_loop_escape pre name post e).
Qed.
End compiler.

(** C5. When the listings succeed and every read succeeds or raises
    ExecuteError, [__compileDataset__] returns a list of one element,
    the mapping from layer name to compiled layer: every readable raster
    has an entry of type "Raster Dataset" with the shape of its array
    and no columns; every readable feature class whose name is not
    already taken by a readable raster has an entry of type
    "Feature Class" with the shape of its table and its field names in
    order; and there is no other entry. *)
Theorem compileDataset_layers arc path versionID rasters vectors σ :
  ListRasters arc (Some path) = Ok rasters →
  ListFeatureClasses arc (Some path) = Ok vectors →
  Forall (λ n, raster_caught arc path n = true) rasters →
  Forall (λ n, vector_caught arc path n = true) vectors →
  ∃ m, compileDataset arc path versionID σ =
         (Ok [m], mkWorld None (s3_downloads σ) (deleted σ)) ∧
       (∀ n a, n ∈ rasters →
               RasterToNumPyArray arc (Some path) n = Ok a →
               m !! n = Some (mkLayer versionID "Raster Dataset" (shape a) [] [a])) ∧
       (∀ n fields a, n ∈ vectors →
               Describe arc (Some path) n = Ok fields →
               TableToNumPyArray arc (Some path) n fields = Ok a →
               ¬ (n ∈ rasters ∧ is_Some (read_raster arc path n)) →
               m !! n = Some (mkLayer versionID "Feature Class" (shape a) fields [a])) ∧
       (∀ n, is_Some (m !! n) →
             (n ∈ rasters ∧ is_Some (read_raster arc path n)) ∨
             (n ∈ vectors ∧ is_Some (read_vector arc path n))).
Proof.
  intros Hr Hv Hrc Hvc. eexists. split; [by apply compileDataset_caught|].
  split; [|split].
  - intros n a Hin Ha.
    rewrite add_vectors_lookup, add_rasters_lookup, lookup_empty.
    rewrite decide_True by done. unfold read_raster. by rewrite Ha.
  - intros n fields a Hin Hf Ha Hfree.
    rewrite add_vectors_lookup, add_rasters_lookup, lookup_empty.
    destruct (decide (n ∈ rasters)) as [Hinr|Hninr].
    + destruct (read_raster arc path n) as [b|] eqn:Hb.
      * exfalso. apply Hfree. split; [done | by eexists].
      * simpl. rewrite decide_True by done. unfold read_vector. by rewrite Hf, Ha.
    + rewrite decide_True by done. unfold read_vector. by rewrite Hf, Ha.
  - intros n. rewrite add_vectors_lookup, add_rasters_lookup, lookup_empty.
    destruct (decide (n ∈ rasters)) as [Hinr|Hninr].
    + destruct (read_raster arc path n) as [b|] eqn:Hb; simpl.
      * intros _. left. split; [done | by eexists].
      * destruct (decide (n ∈ vectors)); [|by intros [? ?]].
        destruct (read_vector arc path n); [|by intros [? ?]].
        intros _. right. split; [done | by eexists].
    + destruct (decide (n ∈ vectors)); [|by intros [? ?]].
      destruct (read_vector arc path n); [|by intros [? ?]].
      intros _. right. split; [done | by eexists].
Qed.

Lemma compileDataset_layers_witness :
  ∃ m, compileDataset gdb_R1V1 "/home/jge/temp/wells.gdb" "v2" world0 = (Ok [m], world0) ∧
       layer_shape <$> m !! "R1" = Some [10; 10] ∧
       layer_shape <$> m !! "V1" = Some [5] ∧
       (length ∘ layer_columns) <$> m !! "V1" = Some 3 ∧
       (∀ n, is_Some (m !! n) → n = "R1" ∨ n = "V1").
Proof.
  destruct (compileDataset_layers gdb_R1V1 "/home/jge/temp/wells.gdb" "v2" ["R1"] ["V1"] world0)
    as (m & Hm & Hras & Hvec & Honly); try reflexivity.
  { repeat constructor. }
  { repeat constructor. }
  exists m. split; [exact Hm|].
  rewrite (Hras "R1" arr_R1) by (reflexivity || apply list_elem_of_here).
  rewrite (Hvec "V1" fields_V1 arr_V1);
    [ | apply list_elem_of_here | reflexivity | reflexivity
      | intros [Hin _]; apply list_elem_of_singleton in Hin; discriminate ].
  repeat split.
  intros n Hn. destruct (Honly n Hn) as [[Hin _]|[Hin _]];
    apply list_elem_of_singleton in Hin; auto.
Defined.

(** The entry of a readable feature class is missing when a readable
    raster has the same name: "X" is read both as a raster and as a
    feature class, and the one entry under "X" is the raster's. The
    value returned is the list that holds the mapping. And a read that
    raises a class the handler does not name returns no mapping at
    all. *)
Lemma compileDataset_collision_counterexample :
  let arc := gdb_collide in
  ListFeatureClasses arc (Some "p") = Ok ["X"] ∧
  Describe arc (Some "p") "X" = Ok fields_V1 ∧
  TableToNumPyArray arc (Some "p") "X" fields_V1 = Ok arr_V1 ∧
  (∃ m, compileDataset arc "p" "v2" world0 = (Ok [m], world0) ∧
        layer_feature_type <$> m !! "X" = Some "Raster Dataset" ∧
        ¬ (∃ layer, m !! "X" = Some layer ∧
                    layer_feature_type layer = "Feature Class")) ∧
  ¬ (∃ ds, (compileDataset gdb_runtime "p" "v2" world0).1 = Ok ds).
Proof.
  simpl. repeat split.
  - exists {[ "X" := raster_layer "v2" arr_R1 ]}. split; [reflexivity|].
    split; [reflexivity|].
    intros (layer & Hl & Ht). rewrite lookup_singleton_eq in Hl.
    injection Hl as <-. discriminate.
  - intros [ds Hds]. discriminate Hds.
Qed.

(** C6. When every failing read raises ExecuteError (the class the
    source reports as "couldn't be read"), no exception leaves
    [__compileDataset__]: the names in the mapping are exactly those of
    the rasters and feature classes that could be read, the others are
    skipped. *)
Theorem compileDataset_skips_unreadable arc path versionID rasters vectors σ :
  ListRasters arc (Some path) = Ok rasters →
  ListFeatureClasses arc (Some path) = Ok vectors →
  Forall (λ n, raster_caught arc path n = true) rasters →
  Forall (λ n, vector_caught arc path n = true) vectors →
  ∃ m, compileDataset arc path versionID σ =
         (Ok [m], mkWorld None (s3_downloads σ) (deleted σ)) ∧
       ∀ n, n ∈ dom m ↔
            (n ∈ rasters ∧ is_Some (read_raster arc path n)) ∨
            (n ∈ vectors ∧ is_Some (read_vector arc path n)).
Proof.
  intros Hr Hv Hrc Hvc. eexists. split; [by apply compileDataset_caught|].
  intros n. rewrite elem_of_dom, add_vectors_lookup, add_rasters_lookup, lookup_empty.
  destruct (decide (n ∈ rasters)) as [Hinr|Hninr];
    destruct (decide (n ∈ vectors)) as [Hinv|Hninv];
    destruct (read_raster arc path n) as [b|];
    destruct (read_vector arc path n) as [[f a]|]; simpl;
    rewrite ?decide_True, ?decide_False by done; simpl;
    split; try (intros [? ?]; discriminate); intros H;
    try (by eexists);
    try (destruct H as [[? [? ?]]|[? [? ?]]]; done);
    try (left; split; [done | by eexists]);
    try (right; split; [done | by eexists]).
Qed.

Lemma compileDataset_skips_unreadable_witness :
  RasterToNumPyArray gdb_unreadable (Some "p") "R1" = Raise ExecuteError ∧
  ∃ m, compileDataset gdb_unreadable "p" "v2" world0 = (Ok [m], world0) ∧
       dom m = {[ "V1" ]}.
Proof.
  split; [reflexivity|].
  destruct (compileDataset_skips_unreadable gdb_unreadable "p" "v2" ["R1"] ["V1"] world0)
    as (m & Hm & Hdom); try reflexivity.
  { repeat constructor. }
  { repeat constructor. }
  exists m. split; [exact Hm|].
  apply set_eq. intros n. rewrite Hdom, elem_of_singleton. split.
  - intros [[Hin Hread]|[Hin _]]; apply list_elem_of_singleton in Hin; subst n.
    + destruct Hread as [? Hread]. discriminate Hread.
    + reflexivity.
  - intros ->. right. split; [apply list_elem_of_here | by eexists].
Defined.

(** A read failure of another class is not skipped: it leaves
    [__compileDataset__], and the readable feature class is not
    compiled. *)
Lemma compileDataset_escape_counterexample :
  RasterToNumPyArray gdb_runtime (Some "p") "R1" = Raise (OtherError "RuntimeError") ∧
  is_Some (read_vector gdb_runtime "p" "V1") ∧
  (compileDataset gdb_runtime "p" "v2" world0).1 = Raise (OtherError "RuntimeError") ∧
  ¬ (∃ ds, (compileDataset gdb_runtime "p" "v2" world0).1 = Ok ds).
Proof.
  split; [reflexivity|]. split; [by eexists|]. split; [reflexivity|].
  intros [ds Hds]. discriminate Hds.
Qed.

(** C7. An exception that leaves [__compileDataset__] skips the line
    that unsets the workspace: after a raster whose read raises a class
    other than ExecuteError, the workspace set at the start is still the
    active one. *)
Theorem compileDataset_failure_keeps_workspace arc path versionID pre name post e σ :
  ListRasters arc (Some path) = Ok (pre ++ name :: post) →
  Forall (λ n, raster_caught arc path n = true) pre →
  RasterToNumPyArray arc (Some path) name = Raise e →
  e ≠ ExecuteError →
  (compileDataset arc path versionID σ).1 = Raise e ∧
  workspace (compileDataset arc path versionID σ).2 = Some path.
Proof.
  intros Hr Hpre Hn He.
  by rewrite (compileDataset_escape arc path versionID pre name post e σ).
Qed.

Lemma compileDataset_failure_keeps_workspace_witness :
  workspace world0 = None ∧
  (compileDataset gdb_runtime "p" "v2" world0).1 = Raise (OtherError "RuntimeError") ∧
  workspace (compileDataset gdb_runtime "p" "v2" world0).2 = Some "p".
Proof.
  split; [reflexivity|].
  apply (compileDataset_failure_keeps_workspace gdb_runtime "p" "v2" [] "R1" []
           (OtherError "RuntimeError") world0).
  - reflexivity.
  - constructor.
  - reflexivity.
  - discriminate.
Defined.

(** ** The storage location pattern *)

Lemma append_cons_s x (a b : string) : String x a +:+ b = String x (a +:+ b).
Proof. reflexivity. Qed.

Lemma append_assoc_s (a b c : string) : (a +:+ b) +:+ c = a +:+ (b +:+ c).
Proof.
  induction a as [|x a IH]; [done|]. rewrite !append_cons_s. by f_equal.
Qed.

Lemma append_nil_r_s (a : string) : a +:+ EmptyString = a.
Proof. induction a as [|x a IH]; [done|]. rewrite append_cons_s. by f_equal. Qed.

(** The two loops of the matcher, one step unfolded. *)
Lemma re_run_lazy p s g :
  re_run (RDotStar false :: p) s g =
  match re_run p s g with
  | Some r => Some r
  | None =>
    match s with
    | String a s' =>
      if Ascii.eqb a LF then None else re_run (RDotStar false :: p) s' (g_push a g)
    | EmptyString => None
    end
  end.
Proof. by destruct s. Qed.

Lemma re_run_greedy p s g :
  re_run (RDotStar true :: p) s g =
  match s with
  | String a s' =>
    if Ascii.eqb a LF then re_run p s g
    else match re_run (RDotStar true :: p) s' (g_push a g) with
         | Some r => Some r
         | None => re_run p s g
         end
  | EmptyString => re_run p s g
  end.
Proof. by destruct s. Qed.

(** The last group, greedy: it takes the rest of the line. *)
Lemma re_run_key s : ∀ buf closed,
  re_run [RDotStar true; RClose] s (mkGroups [buf] closed) =
  Some (mkGroups [] (closed ++ [buf +:+ line_of s])).
Proof.
  induction s as [|a s IH]; intros buf closed; rewrite re_run_greedy.
  - simpl. unfold g_end. simpl. by rewrite append_nil_r_s.
  - simpl line_of. destruct (Ascii.eqb a LF).
    + simpl. unfold g_end. simpl. by rewrite append_nil_r_s.
    + unfold g_push. simpl g_open. simpl g_closed. simpl map.
      rewrite IH. by rewrite append_assoc_s.
Qed.

(** The first group, lazy, before [/]: it stops at the first [/] and
    fails at a line feed. *)
Lemma re_run_bucket s : ∀ buf,
  re_run [RDotStar false; RClose; RChar "/"; ROpen; RDotStar true; RClose] s
         (mkGroups [buf] []) =
  match before_slash s with
  | Some (b, rest) => Some (mkGroups [] [buf +:+ b; line_of rest])
  | None => None
  end.
Proof.
  induction s as [|a s IH]; intros buf; rewrite re_run_lazy.
  - reflexivity.
  - assert (Hrest : re_run [RClose; RChar "/"; ROpen; RDotStar true; RClose]
                      (String a s) (mkGroups [buf] []) =
                    if Ascii.eqb a "/" then Some (mkGroups [] [buf; line_of s]) else None).
    { cbn [re_run]. destruct (Ascii.eqb a "/"); [|done].
      unfold g_end, g_push, g_begin. simpl.
      change (re_run [RDotStar true; RClose] s (mkGroups [EmptyString] [buf]) =
              Some (mkGroups [] [buf; line_of s])).
      by rewrite re_run_key. }
    rewrite Hrest. simpl before_slash.
    destruct (Ascii.eqb a "/") eqn:Hslash.
    + by rewrite append_nil_r_s.
    + destruct (Ascii.eqb a LF); [done|].
      unfold g_push. simpl g_open. simpl g_closed. simpl map.
      rewrite IH. destruct (before_slash s) as [[b rest]|]; [|done].
      by rewrite append_assoc_s.
Qed.

(** The whole pattern agrees with the direct reading. *)
Lemma re_match_parse_location s :
  re_match "s3:\/\/(.*?)\/(.*)" s =
  match parse_location s with
  | Some (bucket, key) => Some [bucket; key]
  | None => None
  end.
Proof.
  unfold re_match, parse_location.
  change (re_compile "s3:\/\/(.*?)\/(.*)") with
    [RChar "s"; RChar "3"; RChar ":"; RChar "/"; RChar "/"; ROpen;
     RDotStar false; RClose; RChar "/"; ROpen; RDotStar true; RClose].
  destruct s as [|c1 s]; [done|]. cbn [re_run strip_prefix].
  destruct (Ascii.eqb c1 "s"); [|done].
  destruct s as [|c2 s]; [done|]. cbn [re_run strip_prefix].
  destruct (Ascii.eqb c2 "3"); [|done].
  destruct s as [|c3 s]; [done|]. cbn [re_run strip_prefix].
  destruct (Ascii.eqb c3 ":"); [|done].
  destruct s as [|c4 s]; [done|]. cbn [re_run strip_prefix].
  destruct (Ascii.eqb c4 "/"); [|done].
  destruct s as [|c5 s]; [done|]. cbn [re_run strip_prefix].
  destruct (Ascii.eqb c5 "/"); [|done].
  unfold g_push, g_begin. simpl g_open. simpl g_closed. simpl map.
  change (g_closed <$> re_run [RDotStar false; RClose; RChar "/"; ROpen;
                               RDotStar true; RClose] s (mkGroups [EmptyString] []) =
          match match before_slash s with
                | Some (bucket, rest) => Some (bucket, line_of rest)
                | None => None
                end with
          | Some (bucket, key) => Some [bucket; key]
          | None => None
          end).
  rewrite re_run_bucket. by destruct (before_slash s) as [[b rest]|].
Qed.

Lemma extractBucketAndKey_parse_location s :
  extractBucketAndKey s =
  match parse_location s with
  | Some bk => Ok bk
  | None => Raise TypeError
  end.
Proof.
  unfold extractBucketAndKey. rewrite re_match_parse_location.
  by destruct (parse_location s) as [[b k]|].
Qed.

Lemma strip_prefix_append p t : strip_prefix p (p +:+ t) = Some t.
Proof.
  induction p as [|c p IH]; [by destruct t|].
  rewrite append_cons_s. simpl. by rewrite Ascii.eqb_refl.
Qed.

Lemma strip_prefix_Some p : ∀ s t, strip_prefix p s = Some t → s = p +:+ t.
Proof.
  induction p as [|c p IH]; intros s t; simpl.
  - destruct s; by intros [= <-].
  - destruct s as [|a s]; [done|].
    destruct (Ascii.eqb_spec a c) as [->|]; [|done].
    intros H. rewrite append_cons_s. f_equal. by apply IH.
Qed.

Lemma before_slash_append b rest :
  occurs "/" b = false → occurs LF b = false →
  before_slash (b +:+ String "/" rest) = Some (b, rest).
Proof.
  induction b as [|a b IH]; [done|].
  rewrite append_cons_s. simpl.
  intros [Ha Hb]%orb_false_elim [Ha' Hb']%orb_false_elim.
  rewrite Ha, Ha'. by rewrite IH.
Qed.

Lemma before_slash_Some s : ∀ b rest,
  before_slash s = Some (b, rest) →
  s = b +:+ String "/" rest ∧ occurs "/" b = false ∧ occurs LF b = false.
Proof.
  induction s as [|a s IH]; intros b rest; simpl; [done|].
  destruct (Ascii.eqb_spec a "/") as [->|Hslash].
  - by intros [= <- <-].
  - destruct (Ascii.eqb a LF) eqn:Hlf; [done|].
    destruct (before_slash s) as [[b' r']|]; [|done].
    intros [= <- <-]. destruct (IH b' r' eq_refl) as (-> & Hs & Hl).
    rewrite append_cons_s. simpl. rewrite Hlf, Hs, Hl.
    by rewrite (proj2 (Ascii.eqb_neq a "/")).
Qed.

Lemma line_of_single_line k : occurs LF k = false → line_of k = k.
Proof.
  induction k as [|a k IH]; simpl; [done|].
  intros [Ha Hk]%orb_false_elim. rewrite Ha. by rewrite IH.
Qed.

Lemma occurs_append c a b : occurs c (a +:+ b) = occurs c a || occurs c b.
Proof.
  induction a as [|x a IH]; [done|].
  rewrite append_cons_s. simpl. by rewrite IH, orb_assoc.
Qed.

(** C8. On a storage location without a line break: a location of the
    form s3://bucket/key, the bucket free of [/], is parsed into the
    pair (bucket, key); a location that is not of that form makes the
    parse raise (the TypeError of subscripting the failed match), and
    no pair is returned. *)
Theorem extractBucketAndKey_single_line :
  (∀ bucket key,
     occurs "/" bucket = false → occurs LF bucket = false → occurs LF key = false →
     extractBucketAndKey ("s3://" +:+ bucket +:+ "/" +:+ key) = Ok (bucket, key)) ∧
  (∀ s,
     occurs LF s = false →
     (∀ bucket key, s ≠ "s3://" +:+ bucket +:+ "/" +:+ key) →
     extractBucketAndKey s = Raise TypeError).
Proof.
  split.
  - intros bucket key Hslash Hlf Hkey.
    rewrite extractBucketAndKey_parse_location. unfold parse_location.
    rewrite strip_prefix_append.
    change ("/" +:+ key) with (String "/" key).
    rewrite before_slash_append by done. by rewrite line_of_single_line.
  - intros s Hlf Hform.
    rewrite extractBucketAndKey_parse_location. unfold parse_location.
    destruct (strip_prefix "s3://" s) as [t|] eqn:Ht; [|done].
    destruct (before_slash t) as [[b rest]|] eqn:Hb; [|done].
    exfalso. apply (Hform b rest).
    apply strip_prefix_Some in Ht. apply before_slash_Some in Hb as (-> & _ & _).
    exact Ht.
Qed.

Lemma extractBucketAndKey_single_line_witness :
  extractBucketAndKey "s3://jge/wells.gdb.zip" = Ok ("jge", "wells.gdb.zip") ∧
  extractBucketAndKey "jge/wells.gdb.zip" = Raise TypeError.
Proof.
  destruct extractBucketAndKey_single_line as [Hform Hother]. split.
  - apply (Hform "jge" "wells.gdb.zip"); reflexivity.
  - apply Hother; [reflexivity|]. intros bucket key. discriminate.
Defined.

(** With a second line neither happens: the location is of the form
    s3://bucket/key only for the key that holds both lines, and the
    parse neither returns that key nor raises; it returns the first line
    of the key. *)
Lemma extractBucketAndKey_line_break_counterexample :
  extractBucketAndKey location_two_lines = Ok ("b", "k") ∧
  location_two_lines ≠ "s3://" +:+ "b" +:+ "/" +:+ "k" ∧
  (∀ bucket key,
     location_two_lines = "s3://" +:+ bucket +:+ "/" +:+ key →
     extractBucketAndKey location_two_lines ≠ Ok (bucket, key)).
Proof.
  split; [reflexivity|]. split; [discriminate|].
  intros bucket key Heq.
  change (extractBucketAndKey location_two_lines) with (Ok ("b", "k") : result _).
  intros [= <- <-]. discriminate Heq.
Qed.

(** * Further properties of the code *)

(** ** The scan: errors and tables that never end *)

Lemma scan_loop_fails_after table pages : ∀ k e resp acc fuel,
  LastEvaluatedKey resp = Some k →
  fails_after table (Some k) pages e →
  length pages < fuel →
  scan_loop fuel table resp acc = Some (Raise e).
Proof.
  induction pages as [|p ps IH]; intros k e resp acc fuel Hk Hf Hfuel;
    (destruct fuel as [|fuel]; [simpl in Hfuel; lia|]);
    simpl; rewrite Hk;
    inversion Hf as [? ? Hq | ? ? k' ? ? Hq Hrest]; subst; rewrite Hq.
  - done.
  - apply (IH k'); [done | done | simpl in Hfuel; lia].
Qed.

(** An exception of a scan request, the first or a later one, leaves
    [__queryCatalog__] as it is, and the pages read before it are not
    returned. *)
Theorem queryCatalog_propagates_scan_error fuel (db : DynamoDB) name table pages e :
  db !! name = Some table →
  fails_after table None pages e →
  length pages ≤ fuel →
  queryCatalog fuel db name = Some (Raise e).
Proof.
  intros Hdb Hf Hfuel. unfold queryCatalog. rewrite Hdb.
  inversion Hf as [? ? Hq | ? p k ps ? Hq Hrest]; subst; rewrite Hq; [done|].
  apply scan_loop_fails_after with (k := k) (pages := ps); [done | done |].
  simpl in Hfuel. lia.
Qed.

Lemma queryCatalog_propagates_scan_error_witness :
  queryCatalog 1 db_throttled "jge-catalog-test-03" =
  Some (Raise (ClientError "ProvisionedThroughputExceededException")).
Proof.
  apply (queryCatalog_propagates_scan_error 1 db_throttled "jge-catalog-test-03"
           throttled_table [[rec_dem]]).
  - reflexivity.
  - apply fails_later with (k := page_token 1); [reflexivity|].
    apply fails_now. reflexivity.
  - simpl. lia.
Defined.

Lemma scan_loop_endless table :
  (∀ tok, ∃ p k, scan table tok = Ok (mkResponse p (Some k))) →
  ∀ fuel resp acc k,
    LastEvaluatedKey resp = Some k →
    scan_loop fuel table resp acc = None.
Proof.
  intros Hmore. induction fuel as [|fuel IH]; intros resp acc k Hk; simpl; rewrite Hk.
  - done.
  - destruct (Hmore (Some k)) as (p & k' & Hq). rewrite Hq.
    by apply (IH _ _ k').
Qed.

(** The loop has no page cap: against a table that answers every request
    with a continuation token, [__queryCatalog__] returns under no bound
    on the number of requests. *)
Theorem queryCatalog_never_returns_on_endless_table (db : DynamoDB) name table :
  db !! name = Some table →
  (∀ tok, ∃ p k, scan table tok = Ok (mkResponse p (Some k))) →
  ∀ fuel, queryCatalog fuel db name = None.
Proof.
  intros Hdb Hmore fuel. unfold queryCatalog. rewrite Hdb.
  destruct (Hmore None) as (p & k & Hq). rewrite Hq.
  by apply (scan_loop_endless table Hmore fuel _ _ k).
Qed.

Lemma queryCatalog_never_returns_on_endless_table_witness :
  queryCatalog 1000 db_endless "jge-catalog-test-03" = None.
Proof.
  apply (queryCatalog_never_returns_on_endless_table db_endless
           "jge-catalog-test-03" endless_table).
  - reflexivity.
  - intros tok. exists [rec_dem], (page_token 1). reflexivity.
Defined.

(** ** The index that construction builds *)

Lemma range_indexed_lookup {R} (rows : list R) i r :
  rows !! i = Some r → range_indexed rows !! i = Some (i, r).
Proof.
  intros Hi. unfold range_indexed. apply lookup_zip_with_Some.
  exists i, r. split; [done|]. split; [|done].
  apply lookup_seq. split; [done|]. by eapply lookup_lt_Some.
Qed.

Lemma features_row_cells d r :
  features_row d = Ok r →
  d !! "feature-name" = Some (ft_feature_name r) ∧
  d !! "s3-versionID" = Some (ft_s3_versionID r) ∧
  d !! "feature-type" = Some (ft_feature_type r) ∧
  d !! "s3-file-gdb-zip-location" = Some (ft_s3_file_gdb_zip_location r).
Proof.
  unfold features_row, getitem.
  destruct (d !! "feature-name"), (d !! "s3-versionID"), (d !! "feature-type"),
    (d !! "s3-file-gdb-zip-location"); unfold_result; try done.
  by intros [= <-].
Qed.

Lemma metadata_row_cells d r :
  metadata_row d = Ok r →
  d !! "feature-name" = Some (md_feature_name r) ∧
  d !! "s3-versionID" = Some (md_s3_versionID r) ∧
  first_block d = Some (md_fields r).
Proof.
  unfold metadata_row, first_block, getitem.
  destruct (d !! "feature-name"), (d !! "s3-versionID"), (d !! "fields") as [f|];
    unfold_result; try done.
  destruct (subscript0 f); unfold_result; [|done].
  by intros [= <-].
Qed.

(** A constructed catalog mirrors the scan: it keeps the table name and
    the scanned records, [FeaturesCount] is the number of records, and
    row [i] of each frame, labelled [i], holds the values of record [i]
    (for the Metadata frame, the first element of its [fields]). *)
Theorem init_mirrors_scan fuel (db : DynamoDB) table cat :
  init fuel db table = Some (Ok cat) →
  getCatalogName cat = table ∧
  queryCatalog fuel db table = Some (Ok (cat_ds cat)) ∧
  FeaturesCount cat = length (cat_ds cat) ∧
  frame_index (getFeatures cat) = seq 0 (length (cat_ds cat)) ∧
  frame_index (cat_Metadata cat) = seq 0 (length (cat_ds cat)) ∧
  ∀ i d, cat_ds cat !! i = Some d →
    ∃ fr mr,
      getFeatures cat !! i = Some (i, fr) ∧
      cat_Metadata cat !! i = Some (i, mr) ∧
      d !! "feature-name" = Some (ft_feature_name fr) ∧
      d !! "s3-versionID" = Some (ft_s3_versionID fr) ∧
      d !! "feature-type" = Some (ft_feature_type fr) ∧
      d !! "s3-file-gdb-zip-location" = Some (ft_s3_file_gdb_zip_location fr) ∧
      md_feature_name mr = ft_feature_name fr ∧
      md_s3_versionID mr = ft_s3_versionID fr ∧
      first_block d = Some (md_fields mr).
Proof.
  intros Hinit.
  destruct (init_Ok_inv _ _ _ _ Hinit)
    as (frows & mrows & Hq & Hf & Hm & Ht & HF & HM & Hc).
  apply collect_Ok_Forall in Hf, Hm.
  pose proof (Forall2_length _ _ _ Hf) as Hlf.
  pose proof (Forall2_length _ _ _ Hm) as Hlm.
  unfold getCatalogName, getFeatures. rewrite HF, HM.
  rewrite !frame_index_range_indexed.
  split; [done|]. split; [done|]. split; [congruence|].
  split; [by rewrite Hlf|]. split; [by rewrite Hlm|].
  intros i d Hi.
  destruct (Forall2_lookup_l _ _ _ _ _ Hf Hi) as (fr & Hfr & Hrow).
  destruct (Forall2_lookup_l _ _ _ _ _ Hm Hi) as (mr & Hmr & Hmrow).
  destruct (features_row_cells d fr Hrow) as (Hn & Hv & Hty & Hl).
  destruct (metadata_row_cells d mr Hmrow) as (Hn' & Hv' & Hb).
  exists fr, mr.
  split; [by apply range_indexed_lookup|]. split; [by apply range_indexed_lookup|].
  repeat split; try done; congruence.
Qed.

Lemma init_mirrors_scan_witness :
  FeaturesCount cat3 = 3 ∧ frame_index (getFeatures cat3) = [0; 1; 2].
Proof.
  pose proof (init_mirrors_scan 2 db3 "jge-catalog-test-03" cat3 init_db3)
    as (_ & _ & Hcount & Hidx & _).
  split; [exact Hcount | exact Hidx].
Defined.

(** Which exception a row builder raises. *)
Lemma has_key_true d k : has_key d k = true → ∃ v, d !! k = Some v.
Proof. unfold has_key. by intros ?%bool_decide_eq_true. Qed.

Lemma has_key_false d k : has_key d k = false → d !! k = None.
Proof.
  unfold has_key. intros H%bool_decide_eq_false. by apply eq_None_not_Some.
Qed.

Lemma has_key_Some d k v : d !! k = Some v → has_key d k = true.
Proof. intros H. unfold has_key. apply bool_decide_eq_true_2. by eexists. Qed.

Lemma has_key_None d k : d !! k = None → has_key d k = false.
Proof.
  intros H. unfold has_key. apply bool_decide_eq_false_2. rewrite H. by intros [? ?].
Qed.

Lemma features_keys_present d :
  first_missing_key features_keys d = None →
  ∃ n v t l, d !! "feature-name" = Some n ∧ d !! "s3-versionID" = Some v ∧
             d !! "feature-type" = Some t ∧ d !! "s3-file-gdb-zip-location" = Some l.
Proof.
  unfold features_keys. simpl.
  destruct (has_key d "feature-name") eqn:H1; [|done].
  destruct (has_key d "s3-versionID") eqn:H2; [|done].
  destruct (has_key d "feature-type") eqn:H3; [|done].
  destruct (has_key d "s3-file-gdb-zip-location") eqn:H4; [|done].
  intros _.
  apply has_key_true in H1 as [n ?], H2 as [v ?], H3 as [t ?], H4 as [l ?].
  by exists n, v, t, l.
Qed.

Lemma features_row_first_missing d k :
  first_missing_key features_keys d = Some k → features_row d = Raise (KeyError k).
Proof.
  unfold features_keys, features_row, getitem. simpl.
  destruct (has_key d "feature-name") eqn:H1;
    [apply has_key_true in H1 as [? ->] | apply has_key_false in H1 as ->; by intros [= <-]].
  destruct (has_key d "s3-versionID") eqn:H2;
    [apply has_key_true in H2 as [? ->] | apply has_key_false in H2 as ->; by intros [= <-]].
  destruct (has_key d "feature-type") eqn:H3;
    [apply has_key_true in H3 as [? ->] | apply has_key_false in H3 as ->; by intros [= <-]].
  destruct (has_key d "s3-file-gdb-zip-location") eqn:H4;
    [done | apply has_key_false in H4 as ->; by intros [= <-]].
Qed.

Lemma metadata_row_first_missing d k :
  first_missing_key metadata_keys d = Some k → metadata_row d = Raise (KeyError k).
Proof.
  unfold metadata_keys, metadata_row, getitem. simpl.
  destruct (has_key d "feature-name") eqn:H1;
    [apply has_key_true in H1 as [? ->] | apply has_key_false in H1 as ->; by intros [= <-]].
  destruct (has_key d "s3-versionID") eqn:H2;
    [apply has_key_true in H2 as [? ->] | apply has_key_false in H2 as ->; by intros [= <-]].
  destruct (has_key d "fields") eqn:H3;
    [done | apply has_key_false in H3 as ->; by intros [= <-]].
Qed.

Lemma metadata_row_bad_fields d n v f e :
  d !! "feature-name" = Some n →
  d !! "s3-versionID" = Some v →
  d !! "fields" = Some f →
  subscript0 f = Raise e →
  metadata_row d = Raise e.
Proof.
  unfold metadata_row, getitem. intros -> -> -> He. unfold_result. by rewrite He.
Qed.

Lemma collect_first_Raise {A B} (f : A → result B) good x rest e :
  Forall (λ g, is_Ok (f g)) good →
  f x = Raise e →
  collect f (good ++ x :: rest) = Raise e.
Proof.
  induction 1 as [|g good [y Hy] _ IH]; intros Hx; simpl.
  - by rewrite Hx.
  - rewrite Hy. unfold_result. by rewrite IH.
Qed.

(** Construction stops at the first record that lacks a feature key,
    with the KeyError of the first key it lacks, in the order
    feature-name, s3-versionID, feature-type, s3-file-gdb-zip-location;
    the Features frame is built first, so this holds whatever the
    [fields] of the records are. *)
Theorem init_KeyError_first_missing_feature_key fuel (db : DynamoDB) table good d rest k :
  queryCatalog fuel db table = Some (Ok (good ++ d :: rest)) →
  Forall (λ g, first_missing_key features_keys g = None) good →
  first_missing_key features_keys d = Some k →
  init fuel db table = Some (Raise (KeyError k)).
Proof.
  intros Hq Hgood Hd. unfold init. rewrite Hq. unfold_result.
  rewrite getCatalogFeatures_collect.
  rewrite (collect_first_Raise features_row good d rest (KeyError k)); [done| |].
  - eapply Forall_impl; [exact Hgood|]. intros g Hg.
    destruct (features_keys_present g Hg) as (n & v & t & l & Hn & Hv & Ht & Hl).
    unfold features_row, getitem. rewrite Hn, Hv, Ht, Hl. by eexists.
  - by apply features_row_first_missing.
Qed.

Lemma init_KeyError_first_missing_feature_key_witness :
  init 0 db_notype "jge-catalog-test-03" = Some (Raise (KeyError "feature-type")).
Proof.
  apply (init_KeyError_first_missing_feature_key 0 db_notype "jge-catalog-test-03"
           [rec_dem; rec_emptyfields] rec_notype []).
  - reflexivity.
  - repeat constructor.
  - reflexivity.
Defined.

(** When every record has the feature keys, construction stops at the
    first record whose Metadata row cannot be built: with the KeyError
    of ['fields'] when the key is absent, and otherwise with what
    [fields[0]] raises, an IndexError on an empty list. *)
Theorem init_raises_on_first_bad_fields fuel (db : DynamoDB) table good d rest :
  queryCatalog fuel db table = Some (Ok (good ++ d :: rest)) →
  Forall (λ g, first_missing_key features_keys g = None) (good ++ d :: rest) →
  Forall (λ g, record_ok g = true) good →
  (d !! "fields" = None →
   init fuel db table = Some (Raise (KeyError "fields"))) ∧
  (∀ f e, d !! "fields" = Some f → subscript0 f = Raise e →
          init fuel db table = Some (Raise e)) ∧
  (d !! "fields" = Some (VList []) →
   init fuel db table = Some (Raise IndexError)).
Proof.
  intros Hq Hall Hgood.
  assert (Hkeys : ∀ g, first_missing_key features_keys g = None →
                       is_Ok (features_row g)).
  { intros g Hg.
    destruct (features_keys_present g Hg) as (n & v & t & l & Hn & Hv & Ht & Hl).
    unfold features_row, getitem. rewrite Hn, Hv, Ht, Hl. by eexists. }
  assert (Hmeta : ∀ e, metadata_row d = Raise e →
                       init fuel db table = Some (Raise e)).
  { intros e He. unfold init. rewrite Hq. unfold_result.
    rewrite getCatalogFeatures_collect, getCatalogMetadata_collect.
    destruct (collect_Forall_Ok features_row (good ++ d :: rest)) as [frows ->].
    { eapply Forall_impl; [exact Hall|]. intros g Hg. by apply Hkeys. }
    unfold_result.
    rewrite (collect_first_Raise metadata_row good d rest e); [done | | done].
    eapply Forall_impl; [exact Hgood|]. intros g Hg. by apply record_ok_rows. }
  assert (Hd : first_missing_key features_keys d = None).
  { apply Forall_app in Hall as [_ Hall]. by apply Forall_cons in Hall as [Hd _]. }
  destruct (features_keys_present d Hd) as (n & v & t & l & Hn & Hv & _).
  split; [|split].
  - intros Hnone. apply Hmeta. apply metadata_row_first_missing.
    unfold metadata_keys. cbn [first_missing_key].
    by rewrite (has_key_Some d _ n), (has_key_Some d _ v), (has_key_None d "fields").
  - intros f e Hf He. apply Hmeta. by apply (metadata_row_bad_fields d n v f e).
  - intros Hf. apply Hmeta. by apply (metadata_row_bad_fields d n v (VList []) IndexError).
Qed.

Lemma init_raises_on_first_bad_fields_witness :
  init 0 db_emptyfields "jge-catalog-test-03" = Some (Raise IndexError).
Proof.
  apply (init_raises_on_first_bad_fields 0 db_emptyfields "jge-catalog-test-03"
           [rec_dem] rec_emptyfields [rec_wells]).
  - reflexivity.
  - repeat constructor.
  - repeat constructor.
  - reflexivity.
Defined.

(** ** The query by feature type *)

Lemma getObjectsByFeatureType_rows self featureType :
  NoDup (frame_index (cat_Features self)) →
  getObjectsByFeatureType self featureType =
  Ok (match filter (λ r, cell_eq (ft_feature_type r) featureType = true)
                   (frame_values (getFeatures self)) with
      | [] => ∅
      | rows => {[ featureType :=
                   map (cells3 ft_feature_name ft_s3_versionID
                          ft_s3_file_gdb_zip_location) rows ]}
      end).
Proof.
  intros Hnd. unfold getObjectsByFeatureType, getFeatures.
  change (features_column "s3-versionID") with (Ok ft_s3_versionID).
  change (features_column "feature-name") with (Ok ft_feature_name).
  change (features_column "feature-type") with (Ok ft_feature_type).
  change (features_column "s3-file-gdb-zip-location")
    with (Ok ft_s3_file_gdb_zip_location).
  unfold_result.
  rewrite <- frame_values_loc_mask.
  apply (objects_of_selection featureType
           (cells3 ft_feature_name ft_s3_versionID ft_s3_file_gdb_zip_location)).
  by apply frame_index_loc_mask_NoDup.
Qed.

(** On a constructed catalog, [getObjectsByFeatureType t] returns the
    empty mapping when no Features row has the type [t]; otherwise a
    mapping whose only key is [t], with the (feature-name, s3-versionID,
    location) triple of every row of that type, in row order; rows of
    another type are left out. *)
Theorem getObjectsByFeatureType_single_key fuel (db : DynamoDB) table self featureType :
  init fuel db table = Some (Ok self) →
  let rows := filter (λ r, cell_eq (ft_feature_type r) featureType = true)
                     (frame_values (getFeatures self)) in
  ∃ m, getObjectsByFeatureType self featureType = Ok m ∧
       (rows = [] → m = ∅) ∧
       (rows ≠ [] →
        dom m = {[ featureType ]} ∧
        m !! featureType =
          Some (map (λ r, (ft_feature_name r, ft_s3_versionID r,
                           ft_s3_file_gdb_zip_location r)) rows)).
Proof.
  intros Hinit rows.
  destruct (init_Ok_inv _ _ _ _ Hinit) as (frows & mrows & _ & _ & _ & _ & HF & _).
  eexists. split.
  - apply getObjectsByFeatureType_rows. rewrite HF. apply frame_index_range_indexed_NoDup.
  - fold rows. split.
    + by intros ->.
    + intros Hne. destruct rows as [|r rows'] eqn:Hrows; [done|]. split.
      * by rewrite dom_singleton_L.
      * apply lookup_singleton_eq.
Qed.

Lemma getObjectsByFeatureType_single_key_witness :
  ∃ m, getObjectsByFeatureType cat3 "Raster Dataset" = Ok m ∧
       dom m = {[ "Raster Dataset" ]} ∧
       m !! "Raster Dataset" =
         Some [(VStr "dem", VStr "v1", VStr "s3://jge/dem.gdb.zip");
               (VStr "slope", VStr "v2", VStr "s3://jge/wells.gdb.zip")].
Proof.
  destruct (getObjectsByFeatureType_single_key 2 db3 "jge-catalog-test-03" cat3
              "Raster Dataset" init_db3) as (m & Hm & _ & Hsome).
  exists m. split; [exact Hm|].
  destruct Hsome as (Hdom & Hlook); [discriminate|].
  split; [exact Hdom|]. rewrite Hlook. reflexivity.
Defined.

(** ** The storage location pattern, in full *)

Lemma line_of_split r :
  ∃ rest, r = line_of r +:+ rest ∧ occurs LF (line_of r) = false ∧
          (rest = EmptyString ∨ ∃ t, rest = String LF t).
Proof.
  induction r as [|a r (rest & Hr & Hl & Hrest)]; simpl.
  - exists EmptyString. by repeat split; [left].
  - destruct (Ascii.eqb_spec a LF) as [->|Hne].
    + exists (String LF r). split; [done|]. split; [done|]. right. by eexists.
    + exists rest. rewrite append_cons_s, <- Hr. split; [done|]. split; [|done].
      simpl. rewrite Hl. by rewrite (proj2 (Ascii.eqb_neq a LF)).
Qed.

Lemma line_of_append k rest :
  occurs LF k = false →
  rest = EmptyString ∨ (∃ t, rest = String LF t) →
  line_of (k +:+ rest) = k.
Proof.
  intros Hk Hrest. induction k as [|a k IH].
  - destruct Hrest as [->|[t ->]]; reflexivity.
  - rewrite append_cons_s. simpl in *.
    apply orb_false_elim in Hk as [Ha Hk]. rewrite Ha. by rewrite IH.
Qed.

Lemma before_slash_no_slash t : occurs "/" t = false → before_slash t = None.
Proof.
  induction t as [|a t IH]; simpl; [done|].
  intros [Ha Ht]%orb_false_elim. rewrite Ha.
  destruct (Ascii.eqb a LF); [done|]. by rewrite IH.
Qed.

(** [__extractBucketAndKey__] returns (bucket, key) exactly for the
    strings that read s3://bucket/key, the bucket with no [/] and no
    line feed, the key with no line feed, followed by nothing or by a
    line feed and anything; so the bucket is the text up to the first
    [/], the key may contain [/], and both may be empty. *)
Theorem extractBucketAndKey_Ok_iff s bucket key :
  extractBucketAndKey s = Ok (bucket, key) ↔
  ∃ rest, s = "s3://" +:+ bucket +:+ "/" +:+ key +:+ rest ∧
          occurs "/" bucket = false ∧ occurs LF bucket = false ∧
          occurs LF key = false ∧
          (rest = EmptyString ∨ ∃ t, rest = String LF t).
Proof.
  rewrite extractBucketAndKey_parse_location. unfold parse_location. split.
  - destruct (strip_prefix "s3://" s) as [t|] eqn:Ht; [|done].
    destruct (before_slash t) as [[b r]|] eqn:Hb; [|done].
    intros [= -> <-].
    apply strip_prefix_Some in Ht. apply before_slash_Some in Hb as (-> & Hs & Hl).
    destruct (line_of_split r) as (rest & Hr & Hk & Hrest).
    exists rest. rewrite Ht. split; [|done].
    change ("/" +:+ line_of r +:+ rest) with (String "/" (line_of r +:+ rest)).
    by rewrite <- Hr.
  - intros (rest & -> & Hs & Hl & Hk & Hrest).
    rewrite strip_prefix_append.
    change ("/" +:+ key +:+ rest) with (String "/" (key +:+ rest)).
    rewrite before_slash_append by done. by rewrite line_of_append.
Qed.

(** The parse raises nothing but TypeError, and raises it on every
    location that has no [/] after s3://. *)
Theorem extractBucketAndKey_only_TypeError :
  (∀ s e, extractBucketAndKey s = Raise e → e = TypeError) ∧
  (∀ t, occurs "/" t = false → extractBucketAndKey ("s3://" +:+ t) = Raise TypeError).
Proof.
  split.
  - intros s e. rewrite extractBucketAndKey_parse_location.
    destruct (parse_location s); [done | by intros [= <-]].
  - intros t Ht. rewrite extractBucketAndKey_parse_location. unfold parse_location.
    by rewrite strip_prefix_append, before_slash_no_slash.
Qed.

Lemma extractBucketAndKey_only_TypeError_witness :
  extractBucketAndKey "s3://jge-bucket" = Raise TypeError.
Proof.
  destruct extractBucketAndKey_only_TypeError as [_ H].
  apply (H "jge-bucket"). reflexivity.
Defined.

(** ** The fetch *)

Lemma download_s3_zip_steps store self versionID σ :
  download_s3_zip store self versionID σ =
  match filter (λ r, cell_eq (ft_s3_versionID r) versionID = true)
               (frame_values (getFeatures self)) with
  | [] => (Raise IndexError, σ)
  | r :: _ =>
    match ft_s3_file_gdb_zip_location r with
    | VStr location =>
      match extractBucketAndKey location with
      | Ok (bucket, key) =>
        (download_and_unzip store bucket key,
         mkWorld (workspace σ) (s3_downloads σ ++ [(bucket, key)]) (deleted σ))
      | Raise e => (Raise e, σ)
      end
    | _ => (Raise TypeError, σ)
    end
  end.
Proof.
  unfold download_s3_zip.
  change (features_column "s3-versionID") with (Ok ft_s3_versionID).
  change (features_column "s3-file-gdb-zip-location")
    with (Ok ft_s3_file_gdb_zip_location).
  unfold mbind at 1. unfold M_bind, lift. unfold_result.
  rewrite frame_values_loc_mask.
  destruct (filter _ (frame_values (getFeatures self))) as [|r others]; [done|].
  simpl. destruct (ft_s3_file_gdb_zip_location r); simpl; try done.
  destruct (extractBucketAndKey s) as [[b k]|e]; done.
Qed.

(** [__download_s3_zip__] uses the location of the first row of the
    version, whatever the other rows of that version say: it asks the
    object store for that one (bucket, key) and returns what the
    download and unzip give. *)
Theorem download_s3_zip_first_row store self versionID σ r others location bucket key :
  filter (λ r, cell_eq (ft_s3_versionID r) versionID = true)
         (frame_values (getFeatures self)) = r :: others →
  ft_s3_file_gdb_zip_location r = VStr location →
  extractBucketAndKey location = Ok (bucket, key) →
  download_s3_zip store self versionID σ =
  (download_and_unzip store bucket key,
   mkWorld (workspace σ) (s3_downloads σ ++ [(bucket, key)]) (deleted σ)).
Proof.
  intros Hrows Hloc Hparse. rewrite download_s3_zip_steps, Hrows, Hloc. by rewrite Hparse.
Qed.

Lemma download_s3_zip_first_row_witness :
  download_s3_zip s3_jge cat3 "v2" world0 =
  (Ok "/home/jge/temp/wells.gdb", mkWorld None [("jge", "wells.gdb.zip")] []).
Proof.
  apply (download_s3_zip_first_row s3_jge cat3 "v2" world0
           (row_of "wells" "v2" "Feature Class" "s3://jge/wells.gdb.zip")
           [row_of "slope" "v2" "Raster Dataset" "s3://jge/wells.gdb.zip"]
           "s3://jge/wells.gdb.zip" "jge" "wells.gdb.zip"); reflexivity.
Defined.

(** A first row whose location is not a string, or is a string the
    pattern does not match, makes [__download_s3_zip__] raise TypeError
    before anything is asked of the object store. *)
Theorem download_s3_zip_malformed_location store self versionID σ r others :
  filter (λ r, cell_eq (ft_s3_versionID r) versionID = true)
         (frame_values (getFeatures self)) = r :: others →
  (∀ location, ft_s3_file_gdb_zip_location r = VStr location →
               extractBucketAndKey location = Raise TypeError) →
  download_s3_zip store self versionID σ = (Raise TypeError, σ).
Proof.
  intros Hrows Hbad. rewrite download_s3_zip_steps, Hrows.
  destruct (ft_s3_file_gdb_zip_location r) as [loc| | | | | | |]; try done.
  by rewrite (Hbad loc).
Qed.

Lemma download_s3_zip_malformed_location_witness :
  download_s3_zip s3_jge cat_badloc "v7" world0 = (Raise TypeError, world0).
Proof.
  apply (download_s3_zip_malformed_location s3_jge cat_badloc "v7" world0
           (row_of "dem" "v7" "Raster Dataset" "https://jge/dem.gdb.zip") []).
  - reflexivity.
  - intros location [= <-]. reflexivity.
Defined.

(** ** The compiler and the world *)

Lemma compile_raster_turn arc path versionID d n σ :
  workspace σ = Some path →
  compile_raster arc versionID d n σ = (raster_turn arc path versionID d n, σ).
Proof.
  intros Hw. rewrite (compile_raster_step arc path) by done. unfold raster_turn.
  by destruct (RasterToNumPyArray arc (Some path) n) as [a|[]].
Qed.

Lemma compile_vector_turn arc path versionID d n σ :
  workspace σ = Some path →
  compile_vector arc versionID d n σ = (vector_turn arc path versionID d n, σ).
Proof.
  intros Hw. rewrite (compile_vector_step arc path) by done. unfold vector_turn.
  destruct (Describe arc (Some path) n) as [fields|[]]; try done.
  by destruct (TableToNumPyArray arc (Some path) n fields) as [a|[]].
Qed.

Lemma raster_loop_fold arc path versionID rasters : ∀ d σ,
  workspace σ = Some path →
  for_each (compile_raster arc versionID) rasters d σ =
  (fold_turns (raster_turn arc path versionID) rasters d, σ).
Proof.
  induction rasters as [|n rest IH]; intros d σ Hw; [done|].
  simpl. unfold mbind at 1. unfold M_bind.
  rewrite (compile_raster_turn arc path) by done.
  destruct (raster_turn arc path versionID d n) as [d'|e]; unfold_result;
    [by apply IH | done].
Qed.

Lemma vector_loop_fold arc path versionID vectors : ∀ d σ,
  workspace σ = Some path →
  for_each (compile_vector arc versionID) vectors d σ =
  (fold_turns (vector_turn arc path versionID) vectors d, σ).
Proof.
  induction vectors as [|n rest IH]; intros d σ Hw; [done|].
  simpl. unfold mbind at 1. unfold M_bind.
  rewrite (compile_vector_turn arc path) by done.
  destruct (vector_turn arc path versionID d n) as [d'|e]; unfold_result;
    [by apply IH | done].
Qed.

Lemma compile_layers_steps arc path versionID :
  compile_layers arc path versionID =
  match ListRasters arc (Some path) with
  | Ok rasters =>
    match fold_turns (raster_turn arc path versionID) rasters ∅ with
    | Ok d =>
      match ListFeatureClasses arc (Some path) with
      | Ok vectors => fold_turns (vector_turn arc path versionID) vectors d
      | Raise e => Raise e
      end
    | Raise e => Raise e
    end
  | Raise e => Raise e
  end.
Proof.
  unfold compile_layers. unfold_result.
  destruct (ListRasters arc (Some path)) as [rasters|e]; [|done].
  destruct (fold_turns (raster_turn arc path versionID) rasters ∅) as [d|e]; [|done].
  by destruct (ListFeatureClasses arc (Some path)).
Qed.

(** [__compileDataset__] as a function of the geodatabase alone, and
    what it leaves in the world. *)
Lemma compileDataset_compile_layers arc path versionID σ :
  compileDataset arc path versionID σ =
  match compile_layers arc path versionID with
  | Ok m => (Ok [m], mkWorld None (s3_downloads σ) (deleted σ))
  | Raise e => (Raise e, mkWorld (Some path) (s3_downloads σ) (deleted σ))
  end.
Proof.
  rewrite compile_layers_steps. unfold compileDataset.
  unfold mbind at 1. unfold M_bind at 1. unfold set_workspace at 1.
  unfold mbind at 1. unfold M_bind at 1. unfold under_workspace at 1.
  simpl workspace.
  destruct (ListRasters arc (Some path)) as [rasters|e]; [|done].
  unfold mbind at 1. unfold M_bind at 1.
  rewrite (raster_loop_fold arc path) by done.
  destruct (fold_turns (raster_turn arc path versionID) rasters ∅) as [d|e]; [|done].
  unfold mbind at 1. unfold M_bind at 1. unfold under_workspace at 1.
  simpl workspace.
  destruct (ListFeatureClasses arc (Some path)) as [vectors|e]; [|done].
  unfold mbind at 1. unfold M_bind at 1.
  rewrite (vector_loop_fold arc path) by done.
  by destruct (fold_turns (vector_turn arc path versionID) vectors d) as [d'|e].
Qed.

(** [__compileDataset__] touches nothing but the workspace: it leaves it
    unset exactly when it returns and set to the path exactly when it
    raises, it downloads and deletes nothing, and its result does not
    depend on the world it starts in, so a workspace left set by an
    earlier call changes nothing. *)
Theorem compileDataset_changes_only_workspace arc path versionID σ :
  let out := compileDataset arc path versionID σ in
  s3_downloads out.2 = s3_downloads σ ∧
  deleted out.2 = deleted σ ∧
  (workspace out.2 = None ↔ is_Ok out.1) ∧
  (workspace out.2 = Some path ↔ is_Raise out.1) ∧
  ∀ σ', (compileDataset arc path versionID σ').1 = out.1.
Proof.
  simpl. rewrite compileDataset_compile_layers.
  assert (Hind : ∀ σ', (compileDataset arc path versionID σ').1 =
                       match compile_layers arc path versionID with
                       | Ok m => Ok [m]
                       | Raise e => Raise e
                       end).
  { intros σ'. rewrite compileDataset_compile_layers.
    by destruct (compile_layers arc path versionID). }
  destruct (compile_layers arc path versionID) as [m|e]; simpl;
    (split; [done|]); (split; [done|]); (split; [|split]); try done.
  - split; [by eexists | done].
  - split; [done | by intros [? ?]].
  - split; [done | by intros [? ?]].
  - split; [by eexists | done].
Qed.

(** The layers that a turn adds come from a read of the object. *)
Lemma raster_turn_from_read arc path versionID d n d' :
  (∀ k l, d !! k = Some l → layer_from_read arc path versionID k l) →
  raster_turn arc path versionID d n = Ok d' →
  ∀ k l, d' !! k = Some l → layer_from_read arc path versionID k l.
Proof.
  intros Hd. unfold raster_turn.
  destruct (RasterToNumPyArray arc (Some path) n) as [a|[]] eqn:Ha; try done;
    intros [= <-]; [|done].
  intros k l. unfold add_if_absent. destruct (d !! n) eqn:Hn; [by apply Hd|].
  destruct (decide (n = k)) as [->|Hne].
  - rewrite lookup_insert_eq. intros [= <-]. split; [done|].
    exists a. split; [done|]. split; [done|]. by left.
  - rewrite lookup_insert_ne by done. by apply Hd.
Qed.

Lemma vector_turn_from_read arc path versionID d n d' :
  (∀ k l, d !! k = Some l → layer_from_read arc path versionID k l) →
  vector_turn arc path versionID d n = Ok d' →
  ∀ k l, d' !! k = Some l → layer_from_read arc path versionID k l.
Proof.
  intros Hd. unfold vector_turn.
  destruct (Describe arc (Some path) n) as [fields|[]] eqn:Hf; try done;
    try (intros [= <-]; done).
  destruct (TableToNumPyArray arc (Some path) n fields) as [a|[]] eqn:Ha; try done;
    intros [= <-]; [|done].
  intros k l. unfold add_if_absent. destruct (d !! n) eqn:Hn; [by apply Hd|].
  destruct (decide (n = k)) as [->|Hne].
  - rewrite lookup_insert_eq. intros [= <-]. split; [done|].
    exists a. split; [done|]. split; [done|]. by right.
  - rewrite lookup_insert_ne by done. by apply Hd.
Qed.

Lemma fold_turns_invariant {A S} (turn : S → A → result S) (P : S → Prop) l :
  (∀ d x d', P d → turn d x = Ok d' → P d') →
  ∀ d d', P d → fold_turns turn l d = Ok d' → P d'.
Proof.
  intros Hstep. induction l as [|x l IH]; intros d d' Hd; simpl.
  - by intros [= <-].
  - destruct (turn d x) as [d1|e] eqn:Hx; unfold_result; [|done].
    apply IH. by eapply Hstep.
Qed.

(** Whatever [__compileDataset__] returns is a list of one mapping, and
    every entry of it comes from a read that succeeded: under a name
    there is the version passed in, one array, its shape, and either
    the type "Raster Dataset" with no columns and the array of the
    raster of that name, or the type "Feature Class" with the field
    names and the table of the feature class of that name. *)
Theorem compileDataset_entries_from_reads arc path versionID σ ds :
  (compileDataset arc path versionID σ).1 = Ok ds →
  ∃ m, ds = [m] ∧
       ∀ name layer, m !! name = Some layer →
                     layer_from_read arc path versionID name layer.
Proof.
  rewrite compileDataset_compile_layers.
  destruct (compile_layers arc path versionID) as [m|e] eqn:Hm; [|done].
  simpl. intros [= <-]. exists m. split; [done|].
  rewrite compile_layers_steps in Hm.
  destruct (ListRasters arc (Some path)) as [rasters|e]; [|done].
  destruct (fold_turns (raster_turn arc path versionID) rasters ∅) as [d|e] eqn:Hr;
    [|done].
  destruct (ListFeatureClasses arc (Some path)) as [vectors|e]; [|done].
  eapply (fold_turns_invariant (vector_turn arc path versionID)
            (λ d, ∀ k l, d !! k = Some l → layer_from_read arc path versionID k l));
    [| |exact Hm].
  - intros d0 x d1 Hd0 Hturn. by eapply vector_turn_from_read.
  - eapply (fold_turns_invariant (raster_turn arc path versionID)
              (λ d, ∀ k l, d !! k = Some l → layer_from_read arc path versionID k l));
      [| |exact Hr].
    + intros d0 x d1 Hd0 Hturn. by eapply raster_turn_from_read.
    + intros k l Hl. by rewrite lookup_empty in Hl.
Qed.

Lemma compileDataset_entries_from_reads_witness :
  ∃ m, (compileDataset gdb_unreadable "p" "v2" world0).1 = Ok [m] ∧
       ∀ name layer, m !! name = Some layer →
                     layer_from_read gdb_unreadable "p" "v2" name layer.
Proof.
  destruct (compileDataset_entries_from_reads gdb_unreadable "p" "v2" world0
              [{[ "V1" := vector_layer "v2" fields_V1 arr_V1 ]}])
    as (m & Hm & Hall); [reflexivity|].
  exists m. split; [by rewrite <- Hm | exact Hall].
Defined.

Lemma raster_turn_caught arc path versionID n d :
  raster_caught arc path n = true → is_Ok (raster_turn arc path versionID d n).
Proof.
  unfold raster_caught, raster_turn.
  destruct (RasterToNumPyArray arc (Some path) n) as [a|[]]; try discriminate;
    intros _; by eexists.
Qed.

Lemma fold_turns_rasters_caught arc path versionID rasters :
  Forall (λ n, raster_caught arc path n = true) rasters →
  ∀ d, is_Ok (fold_turns (raster_turn arc path versionID) rasters d).
Proof.
  induction 1 as [|n rest Hn _ IH]; intros d; simpl; [by eexists|].
  destruct (raster_turn_caught arc path versionID n d Hn) as [d' ->].
  unfold_result. apply IH.
Qed.






(** The two listings stand outside the [try] blocks: whatever a listing
    raises, ExecuteError included, leaves [__compileDataset__], and the
    workspace stays set. *)
Theorem compileDataset_listing_error_uncaught arc path versionID σ e :
  (ListRasters arc (Some path) = Raise e →
   compileDataset arc path versionID σ =
   (Raise e, mkWorld (Some path) (s3_downloads σ) (deleted σ))) ∧
  (∀ rasters,
     ListRasters arc (Some path) = Ok rasters →
     Forall (λ n, raster_caught arc path n = true) rasters →
     ListFeatureClasses arc (Some path) = Raise e →
     compileDataset arc path versionID σ =
     (Raise e, mkWorld (Some path) (s3_downloads σ) (deleted σ))).
Proof.
  split.
  - intros Hr. by rewrite compileDataset_compile_layers, compile_layers_steps, Hr.
  - intros rasters Hr Hrc Hv.
    rewrite compileDataset_compile_layers, compile_layers_steps, Hr.
    destruct (fold_turns_rasters_caught arc path versionID rasters Hrc ∅) as [d ->].
    by rewrite Hv.
Qed.

Lemma compileDataset_listing_error_uncaught_witness :
  compileDataset gdb_nolist "p" "v2" world0 =
  (Raise ExecuteError, mkWorld (Some "p") [] []).
Proof.
  destruct (compileDataset_listing_error_uncaught gdb_nolist "p" "v2" world0 ExecuteError)
    as [_ H].
  apply (H ["R1"]).
  - reflexivity.
  - repeat constructor.
  - reflexivity.
Defined.

(** ** retrieveDataset *)

Lemma retrieveDataset_steps store arc self versionID σ :
  retrieveDataset store arc self versionID σ =
  match download_s3_zip store self versionID σ with
  | (Ok file_gdb, σ1) =>
    match compileDataset arc file_gdb versionID σ1 with
    | (Ok dataset, σ2) =>
      match Delete arc file_gdb with
      | Ok _ => (Ok dataset,
                 mkWorld (workspace σ2) (s3_downloads σ2) (deleted σ2 ++ [file_gdb]))
      | Raise e => (Raise e, σ2)
      end
    | (Raise e, σ2) => (Raise e, σ2)
    end
  | (Raise e, σ1) => (Raise e, σ1)
  end.
Proof.
  unfold retrieveDataset.
  unfold mbind at 1. unfold M_bind at 1.
  destruct (download_s3_zip store self versionID σ) as [[file_gdb|e] σ1]; [|done].
  unfold mbind at 1. unfold M_bind at 1.
  destruct (compileDataset arc file_gdb versionID σ1) as [[dataset|e] σ2]; [|done].
  unfold mbind at 1. unfold M_bind at 1. unfold arcpy_delete.
  by destruct (Delete arc file_gdb) as [[]|e].
Qed.

Lemma compileDataset_out arc path versionID σ :
  compileDataset arc path versionID σ =
  ((compileDataset arc path versionID σ).1,
   mkWorld (match (compileDataset arc path versionID σ).1 with
            | Ok _ => None
            | Raise _ => Some path
            end) (s3_downloads σ) (deleted σ)).
Proof.
  rewrite compileDataset_compile_layers.
  by destruct (compile_layers arc path versionID).
Qed.

(** When the fetch, the compilation and the deletion all succeed,
    [retrieveDataset] returns what the compiler returned for the fetched
    geodatabase, and leaves the world of the fetch with the workspace
    unset and that geodatabase, and nothing else, deleted. *)
Theorem retrieveDataset_success store arc self versionID σ σ1 file_gdb dataset :
  download_s3_zip store self versionID σ = (Ok file_gdb, σ1) →
  (compileDataset arc file_gdb versionID σ1).1 = Ok dataset →
  Delete arc file_gdb = Ok tt →
  retrieveDataset store arc self versionID σ =
  (Ok dataset, mkWorld None (s3_downloads σ1) (deleted σ1 ++ [file_gdb])).
Proof.
  intros Hd Hc Hdel. rewrite retrieveDataset_steps, Hd.
  rewrite (compileDataset_out arc file_gdb versionID σ1), Hc, Hdel. done.
Qed.

Lemma retrieveDataset_success_witness :
  ∃ dataset,
    retrieveDataset s3_jge gdb_R1V1 cat3 "v2" world0 =
    (Ok dataset, mkWorld None [("jge", "wells.gdb.zip")] ["/home/jge/temp/wells.gdb"]).
Proof.
  eexists.
  apply (retrieveDataset_success s3_jge gdb_R1V1 cat3 "v2" world0
           (mkWorld None [("jge", "wells.gdb.zip")] []) "/home/jge/temp/wells.gdb");
    reflexivity.
Defined.

(** When the compilation raises, [retrieveDataset] raises the same
    exception and never reaches the deletion: the geodatabase that was
    fetched stays on disk, and the workspace stays set to it. *)
Theorem retrieveDataset_compile_failure_skips_delete
    store arc self versionID σ σ1 file_gdb e :
  download_s3_zip store self versionID σ = (Ok file_gdb, σ1) →
  (compileDataset arc file_gdb versionID σ1).1 = Raise e →
  retrieveDataset store arc self versionID σ =
  (Raise e, mkWorld (Some file_gdb) (s3_downloads σ1) (deleted σ1)).
Proof.
  intros Hd Hc. rewrite retrieveDataset_steps, Hd.
  rewrite (compileDataset_out arc file_gdb versionID σ1), Hc. done.
Qed.

Lemma retrieveDataset_compile_failure_skips_delete_witness :
  retrieveDataset s3_jge gdb_runtime cat3 "v2" world0 =
  (Raise (OtherError "RuntimeError"),
   mkWorld (Some "/home/jge/temp/wells.gdb") [("jge", "wells.gdb.zip")] []).
Proof.
  apply (retrieveDataset_compile_failure_skips_delete s3_jge gdb_runtime cat3 "v2" world0
           (mkWorld None [("jge", "wells.gdb.zip")] []) "/home/jge/temp/wells.gdb");
    reflexivity.
Defined.

(** When the deletion raises, the compiled dataset is lost: the caller
    gets the exception of the deletion, after a compilation that
    succeeded. *)
Theorem retrieveDataset_delete_failure_loses_dataset
    store arc self versionID σ σ1 file_gdb dataset e :
  download_s3_zip store self versionID σ = (Ok file_gdb, σ1) →
  (compileDataset arc file_gdb versionID σ1).1 = Ok dataset →
  Delete arc file_gdb = Raise e →
  retrieveDataset store arc self versionID σ =
  (Raise e, mkWorld None (s3_downloads σ1) (deleted σ1)).
Proof.
  intros Hd Hc Hdel. rewrite retrieveDataset_steps, Hd.
  rewrite (compileDataset_out arc file_gdb versionID σ1), Hc, Hdel. done.
Qed.

Lemma retrieveDataset_delete_failure_loses_dataset_witness :
  is_Ok (compileDataset gdb_locked "/home/jge/temp/wells.gdb" "v2"
           (mkWorld None [("jge", "wells.gdb.zip")] [])).1 ∧
  retrieveDataset s3_jge gdb_locked cat3 "v2" world0 =
  (Raise ExecuteError, mkWorld None [("jge", "wells.gdb.zip")] []).
Proof.
  split; [by eexists|].
  eapply (retrieveDataset_delete_failure_loses_dataset s3_jge gdb_locked cat3 "v2" world0
            (mkWorld None [("jge", "wells.gdb.zip")] []) "/home/jge/temp/wells.gdb");
    reflexivity.
Defined.

(** The fetch and the query by version agree: the archive that
    [__download_s3_zip__] asks for is the one of the first triple that
    [getObjectsByVersionID] lists under the version. *)
Theorem download_s3_zip_fetches_first_listed
    fuel (db : DynamoDB) table store self versionID σ m name type location others
    bucket key :
  init fuel db table = Some (Ok self) →
  getObjectsByVersionID self versionID = Ok m →
  m !! versionID = Some ((name, type, VStr location) :: others) →
  extractBucketAndKey location = Ok (bucket, key) →
  download_s3_zip store self versionID σ =
  (download_and_unzip store bucket key,
   mkWorld (workspace σ) (s3_downloads σ ++ [(bucket, key)]) (deleted σ)).
Proof.
  intros Hinit Hm Hlook Hparse.
  destruct (init_Ok_inv _ _ _ _ Hinit) as (frows & mrows & _ & _ & _ & _ & HF & _).
  rewrite getObjectsByVersionID_rows in Hm
    by (rewrite HF; apply frame_index_range_indexed_NoDup).
  rewrite download_s3_zip_steps.
  destruct (filter _ (frame_values (getFeatures self))) as [|r rows].
  - injection Hm as <-. by rewrite lookup_empty in Hlook.
  - injection Hm as <-. rewrite lookup_singleton_eq in Hlook.
    simpl in Hlook. unfold cells3 in Hlook. injection Hlook as _ _ Hloc _.
    by rewrite Hloc, Hparse.
Qed.

Lemma download_s3_zip_fetches_first_listed_witness :
  download_s3_zip s3_jge cat3 "v2" world0 =
  (Ok "/home/jge/temp/wells.gdb", mkWorld None [("jge", "wells.gdb.zip")] []).
Proof.
  apply (download_s3_zip_fetches_first_listed 2 db3 "jge-catalog-test-03" s3_jge cat3 "v2"
           world0
           {[ "v2" := [(VStr "wells", VStr "Feature Class", VStr "s3://jge/wells.gdb.zip");
                       (VStr "slope", VStr "Raster Dataset", VStr "s3://jge/wells.gdb.zip")] ]}
           (VStr "wells") (VStr "Feature Class") "s3://jge/wells.gdb.zip"
           [(VStr "slope", VStr "Raster Dataset", VStr "s3://jge/wells.gdb.zip")]
           "jge" "wells.gdb.zip"); reflexivity || exact init_db3.
Defined.
